(** * microflack_users: the users service of MicroFlack (app.py)

    A shallow embedding of the [User] model, its presence operations
    ([ping], [find_offline_users], the background loop) and the REST
    handlers of app.py, with the properties the specification states
    about them.

    Conventions of the embedding.
    - The [users] table is a list of rows in primary-key order.
    - [timestamp()] (microflack_common.utils, [int(time.time())]) is read
      once per operation and passed as [now].
    - SQLAlchemy's unit of work is written out: a flush emits an UPDATE
      only for an object with a net change, the UPDATE stamps
      [updated_at] (the column's [onupdate=timestamp]), and the UNIQUE
      constraint on [nickname] makes the statement raise.
    - An exception that reaches Flask becomes the response: [abort(c)]
      gives status [c], anything else 500; the open transaction is
      rolled back. *)

From Stdlib Require Import ZArith String Ascii DecimalString.
From Stdlib Require DecimalPos.
From stdpp Require Import base option list sorting strings gmap.

Open Scope Z_scope.

(** ** The User model (app.py, class User) *)

Record User := mkUser {
  id : Z;
  created_at : Z;
  updated_at : Z;
  last_seen_at : Z;
  nickname : string;
  password_hash : string;
  online : bool
}.

#[global] Instance User_eq_dec : EqDecision User.
Proof. solve_decision. Defined.

Abbreviation store := (list User).

Definition set_updated_at (t : Z) (u : User) : User :=
  mkUser (id u) (created_at u) t (last_seen_at u) (nickname u)
         (password_hash u) (online u).

Definition set_nickname (n : string) (u : User) : User :=
  mkUser (id u) (created_at u) (updated_at u) (last_seen_at u) n
         (password_hash u) (online u).

Definition set_password_hash (h : string) (u : User) : User :=
  mkUser (id u) (created_at u) (updated_at u) (last_seen_at u) (nickname u)
         h (online u).

Definition set_online (b : bool) (u : User) : User :=
  mkUser (id u) (created_at u) (updated_at u) (last_seen_at u) (nickname u)
         (password_hash u) b.

(** [User.ping]: two attribute assignments, nothing else. *)
Definition ping (now : Z) (u : User) : User :=
  mkUser (id u) (created_at u) (updated_at u) now (nickname u)
         (password_hash u) true.

(** ** Exceptions and results *)

Inductive exn :=
  | HTTPException (code : Z)   (* flask.abort(code) *)
  | KeyError
  | ValueError
  | IntegrityError             (* a constraint of the table is violated *)
  | OperationalError.          (* the store cannot be reached *)

Inductive result (A : Type) :=
  | Ok (a : A)
  | Raise (e : exn).
Arguments Ok {A} a.
Arguments Raise {A} e.

#[global] Instance result_ret : MRet result := λ A a, Ok a.
#[global] Instance result_bind : MBind result := λ A B f m,
  match m with
  | Ok a => f a
  | Raise e => Raise e
  end.

(** ** The table: queries *)

(** [User.query.get(uid)] *)
Definition query_get (uid : Z) (db : store) : option User :=
  head (filter (λ u, id u = uid) db).

(** [User.query.filter_by(nickname=n).first()] *)
Definition first_by_nickname (n : string) (db : store) : option User :=
  head (filter (λ u, nickname u = n) db).

(** ** The table: unit of work *)

(** The integer primary key of the next inserted row. *)
Definition next_id (db : store) : Z :=
  1 + foldr Z.max 0 (id <$> db).

(** UPDATE ... WHERE id = [id row]. *)
Definition replace_row (row : User) (db : store) : store :=
  (λ r, if decide (id r = id row) then row else r) <$> db.

(** Flush of one loaded object: [orig] is the row as loaded, [new] the
    object at commit time.  No net change, no statement.  Otherwise the
    UPDATE carries [onupdate], and a changed nickname that another row
    holds violates [unique=True]. *)
Definition flush_update (now : Z) (db : store) (ch : User * User)
  : result store :=
  let (orig, new) := ch in
  if decide (orig = new) then Ok db
  else if decide (nickname new ≠ nickname orig ∧ nickname new ∈ nickname <$> db)
  then Raise IntegrityError
  else Ok (replace_row (set_updated_at now new) db).

(** [db.session.commit()] over the modified objects, in order; the batch
    is one transaction, so an exception leaves the table as it was. *)
Fixpoint flush_all (now : Z) (chs : list (User * User)) (db : store)
  : result store :=
  match chs with
  | [] => Ok db
  | ch :: rest => db' ← flush_update now db ch; flush_all now rest db'
  end.

(** Flush of a new object: the column defaults fill what the object
    leaves unset ([created_at], [updated_at], [last_seen_at] from
    [timestamp], [online] false). *)
Definition flush_insert (now : Z) (n h : string) (db : store)
  : result (User * store) :=
  if decide (n ∈ nickname <$> db) then Raise IntegrityError
  else let row := mkUser (next_id db) now now now n h false in
       Ok (row, db ++ [row]).

(** ** Presence *)

Definition is_stale (now : Z) (u : User) : Prop :=
  last_seen_at u < now - 60 ∧ online u = true.

#[global] Instance is_stale_dec now u : Decision (is_stale now u).
Proof. unfold is_stale. apply _. Defined.

(** [User.find_offline_users] *)
Definition find_offline_users (now : Z) (db : store) : result store :=
  let users := filter (is_stale now) db in
  flush_all now ((λ u, (u, set_online false u)) <$> users) db.

(** The row a stored user [u] ends as when [ping] is followed by the
    commit, as in [verify_password] and [before_request]. *)
Definition touch (now : Z) (u : User) : User :=
  if decide (u = ping now u) then u else set_updated_at now (ping now u).


(** ** Requests and responses *)

(** [str(z)], as ['{}'.format] and the URL converter print an integer. *)
Definition str (z : Z) : string := NilZero.string_of_int (Z.to_int z).

Definition is_space (c : ascii) : bool :=
  bool_decide (c ∈ [" "; "009"; "010"; "011"; "012"; "013"]%char).

Fixpoint lstrip (s : string) : string :=
  match s with
  | String c r => if is_space c then lstrip r else s
  | EmptyString => EmptyString
  end.

Definition strip (s : string) : string :=
  String.rev (lstrip (String.rev (lstrip s))).

(** [int(s)] on a query string: surrounding blanks, one optional sign,
    ASCII digits; anything else is a ValueError.  (Digit grouping with
    underscores is not covered.) *)
Definition int (s : string) : result Z :=
  let digits (t : string) : result Z :=
    match NilZero.uint_of_string t with
    | Some d => Ok (Z.of_uint d)
    | None => Raise ValueError
    end in
  match strip s with
  | String "+" t => digits t
  | String "-" t => z ← digits t; Ok (- z)
  | t => digits t
  end.

Record Links := mkLinks {
  self : string;
  messages : string;
  tokens : string
}.

(** The dictionary of [User.to_dict]; the password hash is not in it. *)
Record UserDict := mkUserDict {
  d_id : Z;
  d_created_at : Z;
  d_updated_at : Z;
  d_nickname : string;
  d_last_seen_at : Z;
  d_online : bool;
  d_links : Links
}.

(** [url_for('get_user', id=uid)], by the route's rule. *)
Definition url_for_get_user (uid : Z) : string := "/api/users/" +:+ str uid.

Definition to_dict (u : User) : UserDict :=
  mkUserDict (id u) (created_at u) (updated_at u) (nickname u)
    (last_seen_at u) (online u)
    (mkLinks (url_for_get_user (id u)) ("/api/messages/" +:+ str (id u))
       "/api/tokens").

Inductive payload :=
  | NoContent
  | ErrorBody
  | UserBody (d : UserDict)
  | UsersBody (l : list UserDict).

Record response := mkResponse {
  status : Z;
  body : payload;
  location : option string
}.

(** The decoded claims of a token, a dictionary. *)
Abbreviation jwt_claims := (gmap string Z).

(** What the token verification of microflack_common.auth makes of the
    Authorization header of a request. *)
Inductive bearer :=
  | NoToken
  | InvalidToken
  | ValidToken (claims : jwt_claims).

Definition token_error : response := mkResponse 401 ErrorBody None.

(** [token_auth.login_required]: without a valid token the view is not
    called. *)
Definition token_auth (tok : bearer)
    (view : jwt_claims → store → result (response * store)) (db : store)
  : result (response * store) :=
  match tok with
  | ValidToken claims => view claims db
  | _ => Ok (token_error, db)
  end.

(** [token_optional_auth.login_required], the gate of the two read
    endpoints, as tests.py fixes it (test_user: no token 200, a bad
    token 401): a request without a token passes, a token that is sent
    has to be valid. *)
Definition token_optional_auth (tok : bearer)
    (view : store → result (response * store)) (db : store)
  : result (response * store) :=
  match tok with
  | InvalidToken => Ok (token_error, db)
  | _ => view db
  end.

(** An exception that leaves the view. *)
Definition handle_exception (e : exn) : response :=
  match e with
  | HTTPException code => mkResponse code ErrorBody None
  | _ => mkResponse 500 ErrorBody None
  end.

(** [before_request]; [g] is the [jwt_claims] attribute of [flask.g] as
    the hook finds it ([None]: the attribute is not there). *)
Definition before_request (now : Z) (g : option jwt_claims) (db : store)
  : result store :=
  match g with
  | Some claims =>
      match claims !! "user_id" with
      | Some uid =>
          match query_get uid db with
          | None => Raise (HTTPException 500)
          | Some user => flush_all now [(user, ping now user)] db
          end
      | None => Ok db
      end
  | None => Ok db
  end.

(** One request: the hook, then the view, each with its own commit. *)
Definition full_dispatch_request (now : Z) (g : option jwt_claims)
    (view : store → result (response * store)) (db : store)
  : response * store :=
  match before_request now g db with
  | Raise e => (handle_exception e, db)
  | Ok db1 =>
      match view db1 with
      | Ok r => r
      | Raise e => (handle_exception e, db1)
      end
  end.

(** ** The read endpoints *)

(** [order_by(User.updated_at.asc(), User.nickname.asc())] *)
Definition user_le (u v : User) : Prop :=
  updated_at u < updated_at v
  ∨ (updated_at u = updated_at v ∧ String.leb (nickname u) (nickname v) = true).

#[global] Instance user_le_dec u v : Decision (user_le u v).
Proof. unfold user_le. apply _. Defined.

(** [if request.args.get('online'): users.filter_by(online=(... != '0'))] *)
Definition filter_online (args : gmap string string) (users : store) : store :=
  match args !! "online" with
  | Some v =>
      if decide (v = "") then users
      else filter (λ u, online u = bool_decide (v ≠ "0")) users
  | None => users
  end.

(** [if request.args.get('updated_since'): users.filter(updated_at >= int(...))] *)
Definition filter_updated_since (args : gmap string string) (users : store)
  : result store :=
  match args !! "updated_since" with
  | Some s =>
      if decide (s = "") then Ok users
      else v ← int s; Ok (filter (λ u, v ≤ updated_at u) users)
  | None => Ok users
  end.

(** [get_users], GET /api/users *)
Definition get_users (tok : bearer) (args : gmap string string)
  : store → result (response * store) :=
  token_optional_auth tok (λ db,
    users ← filter_updated_since args (filter_online args db);
    Ok (mkResponse 200 (UsersBody (to_dict <$> merge_sort user_le users)) None,
        db)).

(** [User.query.get_or_404(uid)] *)
Definition get_or_404 (uid : Z) (db : store) : result User :=
  match query_get uid db with
  | Some user => Ok user
  | None => Raise (HTTPException 404)
  end.

(** [get_user], GET /api/users/<int:id> *)
Definition get_user (tok : bearer) (uid : Z)
  : store → result (response * store) :=
  token_optional_auth tok (λ db,
    user ← get_or_404 uid db;
    Ok (mkResponse 200 (UserBody (to_dict user)) None, db)).

(** ** The background thread of [before_first_request] *)

(** What the store does during one pass of the loop. *)
Inductive store_status := Reachable | Unreachable.

(** The body of [while True] up to the sleep; a store that cannot be
    reached makes the query raise. *)
Definition loop_body (now : Z) (st : store_status) (db : store)
  : result store :=
  match st with
  | Reachable => find_offline_users now db
  | Unreachable => Raise OperationalError
  end.

Inductive thread_state :=
  | Sleeping (db : store)             (* in [time.sleep(5)], loop alive *)
  | Terminated (e : exn) (db : store). (* an exception left the target *)

(** The thread's target over the passes the scheduler grants it, each
    with its clock reading and the store's condition.  There is no
    [try] in the loop: an exception leaves [while True]. *)
Fixpoint background_thread (passes : list (Z * store_status)) (db : store)
  : thread_state :=
  match passes with
  | [] => Sleeping db
  | (now, st) :: rest =>
      match loop_body now st db with
      | Ok db' => background_thread rest db'
      | Raise e => Terminated e db
      end
  end.

(** [if not app.config['TESTING']: thread.start()] *)
Definition before_first_request (testing : bool)
    (passes : list (Z * store_status)) (db : store) : option thread_state :=
  if testing then None else Some (background_thread passes db).

(** ** Registration, editing, password login *)

Section Passwords.

(** werkzeug.security, as it answers during the request at hand. *)
Variable generate_password_hash : string → string.
Variable check_password_hash : string → string → bool.

(** The two attributes [from_dict] assigns; [None]: not set yet, as on
    a fresh [User()]. *)
Record attrs := mkAttrs {
  a_nickname : option string;
  a_password_hash : option string
}.

Definition attrs_of (u : User) : attrs :=
  mkAttrs (Some (nickname u)) (Some (password_hash u)).

(** [setattr(self, field, value)]; ['password'] goes through the
    property's setter. *)
Definition setattr (field value : string) (self : attrs) : attrs :=
  if decide (field = "nickname")
  then mkAttrs (Some value) (a_password_hash self)
  else mkAttrs (a_nickname self) (Some (generate_password_hash value)).

Fixpoint from_dict_loop (fields : list string) (data : gmap string string)
    (partial_update : bool) (self : attrs) : result attrs :=
  match fields with
  | [] => Ok self
  | field :: rest =>
      match data !! field with
      | Some value =>
          from_dict_loop rest data partial_update (setattr field value self)
      | None =>
          if partial_update then from_dict_loop rest data partial_update self
          else Raise (HTTPException 400)
      end
  end.

(** [User.from_dict] *)
Definition from_dict (data : gmap string string) (partial_update : bool)
    (self : attrs) : result attrs :=
  from_dict_loop ["nickname"; "password"] data partial_update self.

(** [User.create] *)
Definition create (data : gmap string string) : result attrs :=
  from_dict data false (mkAttrs None None).

(** [new_user], POST /api/users.  A column left unset would break
    [nullable=False]. *)
Definition new_user (now : Z) (data : gmap string string) (db : store)
  : result (response * store) :=
  user ← create data;
  match a_nickname user, a_password_hash user with
  | Some n, Some h =>
      match first_by_nickname n db with
      | Some _ => Raise (HTTPException 400)
      | None =>
          '(row, db') ← flush_insert now n h db;
          Ok (mkResponse 201 (UserBody (to_dict row))
                (Some (url_for_get_user (id row))), db')
      end
  | _, _ => Raise IntegrityError
  end.

(** The loaded object after [from_dict]. *)
Definition with_attrs (a : attrs) (u : User) : User :=
  set_password_hash (default (password_hash u) (a_password_hash a))
    (set_nickname (default (nickname u) (a_nickname a)) u).

(** [edit_user], PUT /api/users/<int:id> *)
Definition edit_user (now : Z) (tok : bearer) (uid : Z)
    (data : gmap string string) : store → result (response * store) :=
  token_auth tok (λ claims db,
    user ← get_or_404 uid db;
    match claims !! "user_id" with
    | None => Raise KeyError
    | Some caller =>
        if decide (id user ≠ caller) then Raise (HTTPException 403)
        else
          a ← from_dict data true (attrs_of user);
          db' ← flush_all now [(user, with_attrs a user)] db;
          Ok (mkResponse 204 NoContent None, db')
    end).

(** [verify_password], the callback of basic authentication: the
    caller's row after the ping and the commit, or [None]. *)
Definition verify_password (now : Z) (nick password : string) (db : store)
  : result (option User * store) :=
  if decide (nick = "" ∨ password = "") then Ok (None, db)
  else match first_by_nickname nick db with
       | None => Ok (None, db)
       | Some user =>
           if check_password_hash (password_hash user) password
           then db' ← flush_all now [(user, ping now user)] db;
                Ok (query_get (id user) db', db')
           else Ok (None, db)
       end.

(** [password_error], the 401 of basic authentication. *)
Definition password_error : response := mkResponse 401 ErrorBody None.

(** [get_me_user], GET /api/users/me; [auth] is the nickname and the
    password of the Authorization header, if the request has one. *)
Definition get_me_user (now : Z) (auth : option (string * string)) (db : store)
  : result (response * store) :=
  match auth with
  | None => Ok (password_error, db)
  | Some (nick, password) =>
      '(current_user, db') ← verify_password now nick password db;
      match current_user with
      | Some user => Ok (mkResponse 200 (UserBody (to_dict user)) None, db')
      | None => Ok (password_error, db')
      end
  end.

End Passwords.

(** ** Vocabulary of the statements *)

(** The row of a user the sweep demotes. *)
Definition demoted (now : Z) (u : User) : User :=
  set_updated_at now (set_online false u).

(** Row by row, a batch of demotions of users with distinct keys. *)
Definition demote_in (now : Z) (us : list User) (r : User) : User :=
  match query_get (id r) us with
  | Some u => demoted now u
  | None => r
  end.

(** The user [before_request] touches, if [flask.g] holds claims that
    name one. *)
Definition hook_user (g : option jwt_claims) : option Z :=
  claims ← g; claims !! "user_id".

(** The claims of a token issued for user [uid], as the tests obtain
    them from [generate_token(uid)]. *)
Definition claims_of (uid : Z) : jwt_claims := {[ "user_id" := uid ]}.

(** A stand-in for [generate_password_hash] in closed examples; what is
    stated with it holds for any function in its place. *)
Definition sample_hash (password : string) : string :=
  "pbkdf2:sha256$" +:+ password.

(** The bound a request's [updated_since] sets on [updated_at], if any. *)
Definition since_bound (args : gmap string string) : result (option Z) :=
  match args !! "updated_since" with
  | Some s => if decide (s = "") then Ok None else v ← int s; Ok (Some v)
  | None => Ok None
  end.

Definition since_ok (b : option Z) (u : User) : Prop :=
  match b with
  | Some v => v ≤ updated_at u
  | None => True
  end.

#[global] Instance since_ok_dec b u : Decision (since_ok b u).
Proof. destruct b; simpl; apply _. Defined.

(** What a request's [online] parameter asks of a listed user. *)
Definition presence_ok (args : gmap string string) (u : User) : Prop :=
  match args !! "online" with
  | Some v =>
      if decide (v = "") then True
      else if decide (v = "0") then online u = false
      else online u = true
  | None => True
  end.

#[global] Instance presence_ok_dec args u : Decision (presence_ok args u).
Proof. unfold presence_ok. repeat case_match; apply _. Defined.

(** The stand-in for [check_password_hash] that goes with
    [sample_hash]. *)
Definition sample_check (pwhash password : string) : bool :=
  bool_decide (pwhash = sample_hash password).

(** What the client gets of a view's outcome. *)
Definition answer (r : result (response * store)) : response :=
  match r with
  | Ok (resp, _) => resp
  | Raise e => handle_exception e
  end.

(** The table with every password hash replaced by another string. *)
Definition rehash (f : User → string) (db : store) : store :=
  (λ u, set_password_hash (f u) u) <$> db.

(** The table a state of the background thread holds. *)
Definition thread_table (st : thread_state) : store :=
  match st with
  | Sleeping db => db
  | Terminated _ db => db
  end.

(** Row [u'] is row [u], but possibly demoted: nothing differs except
    that an online [u] may have become offline, with [updated_at]
    rewritten. *)
Definition only_demoted (u u' : User) : Prop :=
  id u' = id u ∧ created_at u' = created_at u
  ∧ last_seen_at u' = last_seen_at u ∧ nickname u' = nickname u
  ∧ password_hash u' = password_hash u
  ∧ (u' = u ∨ (online u = true ∧ online u' = false)).

(** The routes of the service ([app.route]), one constructor each. *)
Inductive request :=
  | PostUsers (data : gmap string string)
  | GetUsers (tok : bearer) (args : gmap string string)
  | GetUser (tok : bearer) (uid : Z)
  | PutUser (tok : bearer) (uid : Z) (data : gmap string string)
  | GetMe (auth : option (string * string)).

(** The view a request is routed to. *)
Definition view_of (generate_password_hash : string → string)
    (check_password_hash : string → string → bool) (now : Z) (req : request)
  : store → result (response * store) :=
  match req with
  | PostUsers data => new_user generate_password_hash now data
  | GetUsers tok args => get_users tok args
  | GetUser tok uid => get_user tok uid
  | PutUser tok uid data => edit_user generate_password_hash now tok uid data
  | GetMe auth => get_me_user check_password_hash now auth
  end.

(** What happens to the table: a request served at [now] with [g] in
    [flask.g], or one pass of the background loop at [now]. *)
Inductive event :=
  | Request (now : Z) (g : option jwt_claims) (req : request)
  | Sweep (now : Z).


Definition step (generate_password_hash : string → string)
    (check_password_hash : string → string → bool) (db : store) (ev : event)
  : store :=
  match ev with
  | Request now g req =>
      (full_dispatch_request now g
         (view_of generate_password_hash check_password_hash now req) db).2
  | Sweep now =>
      match find_offline_users now db with
      | Ok db' => db'
      | Raise _ => db
      end
  end.

(** The table after a history of events, oldest first. *)
Definition run (generate_password_hash : string → string)
    (check_password_hash : string → string → bool) (evs : list event)
    (db : store) : store :=
  foldl (step generate_password_hash check_password_hash) db evs.

(** The keys of the table: primary key and nickname, each without
    repetition. *)
Definition keys_unique (db : store) : Prop :=
  NoDup (id <$> db) ∧ NoDup (nickname <$> db).





(** What one hook or one view commits: nothing, one INSERT of a row
    built from the column defaults, or the flush of one loaded row whose
    key and timestamps the code has not assigned, but for a
    [last_seen_at] set to the clock reading. *)
Inductive commits (now : Z) (db : store) : store → Prop :=
  | commits_nothing : commits now db db
  | commits_insert n h :
      n ∉ nickname <$> db →
      commits now db (db ++ [mkUser (next_id db) now now now n h false])
  | commits_update orig new db' :
      orig ∈ db → id new = id orig → created_at new = created_at orig →
      updated_at new = updated_at orig →
      last_seen_at new = last_seen_at orig ∨ last_seen_at new = now →
      flush_update now db (orig, new) = Ok db' →
      commits now db db'.

(** * Properties *)

(** ** Queries by key *)

Lemma query_get_Some uid (db : store) u :
  query_get uid db = Some u → u ∈ db ∧ id u = uid.
Proof.
  unfold query_get. intros H.
  apply head_Some_elem_of in H. by apply list_elem_of_filter in H as [? ?].
Qed.

Lemma query_get_None uid (db : store) :
  query_get uid db = None ↔ uid ∉ id <$> db.
Proof.
  unfold query_get. induction db as [|r db IH]; simpl.
  - split; [intros _; apply not_elem_of_nil | done].
  - rewrite filter_cons. case_decide as Hr; simpl.
    + split; [done|]. intros []. subst. left.
    + rewrite IH, not_elem_of_cons.
      split; [intros ?; split; [congruence|done] | by intros [_ ?]].
Qed.

Lemma query_get_stored (db : store) u :
  NoDup (id <$> db) → u ∈ db → query_get (id u) db = Some u.
Proof.
  unfold query_get. induction db as [|r db IH]; simpl; intros Hnd Hu.
  - by apply elem_of_nil in Hu.
  - apply NoDup_cons in Hnd as [Hr Hnd]. rewrite filter_cons.
    apply elem_of_cons in Hu as [->|Hu].
    + by rewrite decide_True.
    + rewrite decide_False; [by apply IH|].
      intros Heq. apply Hr. rewrite Heq. by apply list_elem_of_fmap_2.
Qed.

(** ** The UPDATE statement *)

Lemma replace_row_ids row (db : store) :
  id <$> replace_row row db = id <$> db.
Proof.
  unfold replace_row. rewrite <- list_fmap_compose.
  apply list_fmap_ext. intros _ r _. simpl. by case_decide.
Qed.

Lemma replace_row_length row (db : store) :
  length (replace_row row db) = length db.
Proof. unfold replace_row. by rewrite length_fmap. Qed.

Lemma replace_row_absent row (db : store) :
  id row ∉ id <$> db → replace_row row db = db.
Proof.
  unfold replace_row. intros Hnot.
  rewrite <- (list_fmap_id db) at 2. apply list_fmap_ext.
  intros i r Hr. simpl. rewrite decide_False; [done|].
  intros Heq. apply Hnot. rewrite <- Heq.
  apply list_elem_of_fmap_2. by eapply list_elem_of_lookup_2.
Qed.

(** ** C1: the sweep *)

Lemma flush_update_demote now (db : store) u :
  online u = true →
  flush_update now db (u, set_online false u)
  = Ok (replace_row (demoted now u) db).
Proof.
  intros Hon. unfold flush_update.
  rewrite decide_False.
  - rewrite decide_False; [done|]. simpl. intros [Hne _]. by apply Hne.
  - intros Heq. apply (f_equal online) in Heq. simpl in Heq. congruence.
Qed.

Lemma flush_all_demote now (us : list User) (db : store) :
  Forall (λ u, online u = true) us →
  flush_all now ((λ u, (u, set_online false u)) <$> us) db
  = Ok (foldl (λ d u, replace_row (demoted now u) d) db us).
Proof.
  intros Hall. revert db.
  induction Hall as [|u us Hu _ IH]; intros db; [done|].
  rewrite fmap_cons. cbn [flush_all].
  rewrite flush_update_demote by done. apply IH.
Qed.

Lemma foldl_replace_demoted now (us : list User) (db : store) :
  NoDup (id <$> us) →
  foldl (λ d u, replace_row (demoted now u) d) db us
  = demote_in now us <$> db.
Proof.
  revert db. induction us as [|u us IH]; intros db Hnd; simpl.
  - rewrite <- (list_fmap_id db) at 1. by apply list_fmap_ext.
  - apply NoDup_cons in Hnd as [Hu Hnd]. rewrite IH by done.
    unfold replace_row. rewrite <- list_fmap_compose.
    apply list_fmap_ext. intros _ r _. simpl.
    unfold demote_in, query_get. rewrite filter_cons.
    case_decide as Hr; simpl in Hr.
    + rewrite decide_True by done. simpl.
      fold (query_get (id u) us).
      by rewrite (proj2 (query_get_None (id u) us) Hu).
    + rewrite decide_False by done. done.
Qed.

Lemma demote_in_stale now (db : store) r :
  NoDup (id <$> db) → r ∈ db →
  demote_in now (filter (is_stale now) db) r
  = if decide (is_stale now r) then demoted now r else r.
Proof.
  intros Hnd Hr. unfold demote_in.
  destruct (query_get (id r) (filter (is_stale now) db)) as [u|] eqn:Hq.
  - apply query_get_Some in Hq as [Hu Hid].
    apply list_elem_of_filter in Hu as [Hst Hu].
    assert (u = r) as ->.
    { pose proof (query_get_stored db u Hnd Hu) as H1.
      pose proof (query_get_stored db r Hnd Hr) as H2.
      rewrite Hid in H1. congruence. }
    by rewrite decide_True.
  - rewrite decide_False; [done|]. intros Hst.
    apply query_get_None in Hq. apply Hq.
    apply list_elem_of_fmap_2. by apply list_elem_of_filter.
Qed.

Lemma find_offline_users_rows now (db : store) :
  NoDup (id <$> db) →
  find_offline_users now db
  = Ok ((λ r, if decide (is_stale now r) then demoted now r else r) <$> db).
Proof.
  intros Hnd. unfold find_offline_users.
  rewrite flush_all_demote.
  - rewrite foldl_replace_demoted.
    + f_equal. apply list_fmap_ext. intros i r Hr.
      apply demote_in_stale; [done|]. by eapply list_elem_of_lookup_2.
    + eapply NoDup_fmap_2_strong; [|by apply NoDup_filter, (NoDup_fmap_1 id)].
      intros u v Hu Hv Heq.
      apply list_elem_of_filter in Hu as [_ Hu].
      apply list_elem_of_filter in Hv as [_ Hv].
      pose proof (query_get_stored db u Hnd Hu) as H1.
      pose proof (query_get_stored db v Hnd Hv) as H2.
      rewrite Heq in H1. congruence.
  - apply Forall_forall. intros u Hu.
    apply list_elem_of_filter in Hu as [[_ Hon] _]. done.
Qed.

(** C1.  On a table with distinct primary keys the sweep at [now]
    commits, keeps every row in place, and changes row [u] exactly when
    [u] was online with [last_seen_at u < now - 60]: such a row gets
    [online = false] and [updated_at = now] and nothing else; every other
    row is left as it was; [last_seen_at] never changes. *)
Theorem find_offline_users_sweep now (db : store) :
  NoDup (id <$> db) →
  ∃ db', find_offline_users now db = Ok db' ∧ length db' = length db ∧
    ∀ i u, db !! i = Some u →
      ∃ u', db' !! i = Some u' ∧ last_seen_at u' = last_seen_at u ∧
        if decide (online u = true ∧ last_seen_at u < now - 60)
        then online u' = false ∧ updated_at u' = now ∧ u' = demoted now u
        else u' = u.
Proof.
  intros Hnd. eexists. split; [by apply find_offline_users_rows|].
  split; [by rewrite length_fmap|].
  intros i u Hi. rewrite list_lookup_fmap, Hi. simpl.
  eexists. split; [done|].
  destruct (decide (is_stale now u)) as [[Hls Hon]|Hns].
  - rewrite decide_True by done. done.
  - rewrite decide_False; [done|]. intros [Hon Hls]. by apply Hns.
Qed.

Lemma find_offline_users_sweep_witness :
  NoDup (id <$> [mkUser 1 0 900 935 "foo" "h" true;
                 mkUser 2 0 900 970 "bar" "h" true;
                 mkUser 3 0 900 100 "baz" "h" false]) ∧
  ∃ db', find_offline_users 1000
           [mkUser 1 0 900 935 "foo" "h" true;
            mkUser 2 0 900 970 "bar" "h" true;
            mkUser 3 0 900 100 "baz" "h" false] = Ok db' ∧
    length db' = length [mkUser 1 0 900 935 "foo" "h" true;
                         mkUser 2 0 900 970 "bar" "h" true;
                         mkUser 3 0 900 100 "baz" "h" false] ∧
    ∀ i u, [mkUser 1 0 900 935 "foo" "h" true;
            mkUser 2 0 900 970 "bar" "h" true;
            mkUser 3 0 900 100 "baz" "h" false] !! i = Some u →
      ∃ u', db' !! i = Some u' ∧ last_seen_at u' = last_seen_at u ∧
        if decide (online u = true ∧ last_seen_at u < 1000 - 60)
        then online u' = false ∧ updated_at u' = 1000 ∧ u' = demoted 1000 u
        else u' = u.
Proof.
  assert (NoDup (id <$> [mkUser 1 0 900 935 "foo" "h" true;
                         mkUser 2 0 900 970 "bar" "h" true;
                         mkUser 3 0 900 100 "baz" "h" false])) as Hnd.
  { apply (bool_decide_unpack (NoDup _)). vm_compute. exact I. }
  split; [exact Hnd|]. exact (find_offline_users_sweep 1000 _ Hnd).
Defined.

(** ** C2: the touch *)

Lemma touch_changed t u : touch t u ≠ u → touch t u = set_updated_at t (ping t u).
Proof. unfold touch. case_decide; [done|]. done. Qed.



(** ** C8, C10: the listing *)

Lemma ascii_compare_trans_le a b c :
  Ascii.compare a b ≠ Gt → Ascii.compare b c ≠ Gt → Ascii.compare a c ≠ Gt.
Proof.
  unfold Ascii.compare. rewrite !N.compare_le_iff. intros. etrans; done.
Qed.

Lemma string_compare_trans_le s1 s2 s3 :
  String.compare s1 s2 ≠ Gt → String.compare s2 s3 ≠ Gt →
  String.compare s1 s3 ≠ Gt.
Proof.
  revert s2 s3. induction s1 as [|a s1 IH]; intros [|b s2] [|c s3]; simpl;
    try done.
  unfold Ascii.compare.
  destruct (N.compare_spec (N_of_ascii a) (N_of_ascii b)) as [Hab|Hab|Hab];
    destruct (N.compare_spec (N_of_ascii b) (N_of_ascii c)) as [Hbc|Hbc|Hbc];
    try done; intros H1 H2.
  - rewrite Hab, Hbc, N.compare_refl. by eapply IH.
  - rewrite Hab. by apply N.compare_lt_iff in Hbc as ->.
  - rewrite <- Hbc. by apply N.compare_lt_iff in Hab as ->.
  - assert (N_of_ascii a < N_of_ascii c)%N as Hac by (etrans; done).
    by apply N.compare_lt_iff in Hac as ->.
Qed.

Lemma string_leb_trans s1 s2 s3 :
  String.leb s1 s2 = true → String.leb s2 s3 = true → String.leb s1 s3 = true.
Proof.
  unfold String.leb. intros H1 H2.
  pose proof (string_compare_trans_le s1 s2 s3) as H.
  destruct (String.compare s1 s2), (String.compare s2 s3),
    (String.compare s1 s3); try done; exfalso; by apply H.
Qed.

#[global] Instance user_le_total : Total user_le.
Proof.
  intros u v. unfold user_le.
  destruct (Z.lt_trichotomy (updated_at u) (updated_at v)) as [?|[Heq|?]];
    [by left; left| |by right; left].
  destruct (String.leb_total (nickname u) (nickname v));
    [left|right]; right; done.
Qed.

#[global] Instance user_le_trans : Transitive user_le.
Proof.
  intros u v w [H1|[H1 L1]] [H2|[H2 L2]]; unfold user_le.
  - left. lia.
  - left. lia.
  - left. lia.
  - right. split; [lia|]. by eapply string_leb_trans.
Qed.

Lemma filter_all {A} (P : A → Prop) `{!∀ x, Decision (P x)} (l : list A) :
  (∀ x, P x) → filter P l = l.
Proof.
  intros HP. induction l as [|x l IH]; [done|].
  rewrite filter_cons, decide_True by done. by rewrite IH.
Qed.

Lemma filter_online_presence args (db : store) :
  filter_online args db = filter (presence_ok args) db.
Proof.
  unfold filter_online.
  destruct (args !! "online") as [v|] eqn:Hv.
  - destruct (decide (v = "")) as [->|Hne].
    + symmetry. apply filter_all. intros u. unfold presence_ok.
      by rewrite Hv.
    + apply list_filter_iff. intros u. unfold presence_ok. rewrite Hv.
      rewrite decide_False by done.
      destruct (decide (v = "0")) as [->|Hn0].
      * by rewrite bool_decide_eq_false_2 by (by intros ?).
      * by rewrite bool_decide_eq_true_2.
  - symmetry. apply filter_all. intros u. unfold presence_ok. by rewrite Hv.
Qed.

Lemma filter_updated_since_bound args (us : store) :
  filter_updated_since args us
  = b ← since_bound args; Ok (filter (since_ok b) us).
Proof.
  unfold filter_updated_since, since_bound.
  destruct (args !! "updated_since") as [s|]; simpl.
  - case_decide; simpl.
    + by rewrite filter_all.
    + by destruct (int s).
  - by rewrite filter_all.
Qed.

Lemma get_users_rows tok args (db : store) :
  tok ≠ InvalidToken →
  get_users tok args db
  = b ← since_bound args;
    Ok (mkResponse 200
          (UsersBody (to_dict <$> merge_sort user_le
             (filter (since_ok b) (filter (presence_ok args) db)))) None, db).
Proof.
  intros Htok. unfold get_users, token_optional_auth.
  rewrite filter_updated_since_bound, filter_online_presence.
  destruct tok; try done; by destruct (since_bound args).
Qed.





(** ** C4: the background loop *)

Lemma find_offline_users_commits now (db : store) :
  ∃ db', find_offline_users now db = Ok db'.
Proof.
  unfold find_offline_users. rewrite flush_all_demote; [by eexists|].
  apply Forall_forall. intros u Hu.
  by apply list_elem_of_filter in Hu as [[_ Hon] _].
Qed.

Lemma background_thread_app pre rest (db db1 : store) :
  background_thread pre db = Sleeping db1 →
  background_thread (pre ++ rest) db = background_thread rest db1.
Proof.
  revert db. induction pre as [|[now st] pre IH]; intros db; simpl.
  - by intros [= ->].
  - destruct (loop_body now st db) as [db'|e]; [apply IH|done].
Qed.

Lemma background_thread_alive pre (db : store) :
  Forall (λ p, p.2 = Reachable) pre →
  ∃ db1, background_thread pre db = Sleeping db1.
Proof.
  intros Hall. revert db.
  induction Hall as [|[now st] pre Hst _ IH]; intros db; simpl.
  - by eexists.
  - simpl in Hst. subst st. simpl.
    destruct (find_offline_users_commits now db) as [db' ->]. apply IH.
Qed.

(** The claim as stated fails: the pass at 1000 raises, and the pass
    scheduled for 1005, which alone would demote the stale user, never
    runs. *)
Lemma background_thread_not_resumed :
  background_thread [(1000, Unreachable); (1005, Reachable)]
    [mkUser 1 0 900 900 "foo" "h" true]
  = Terminated OperationalError [mkUser 1 0 900 900 "foo" "h" true]
  ∧ background_thread [(1005, Reachable)] [mkUser 1 0 900 900 "foo" "h" true]
    = Sleeping [mkUser 1 0 1005 900 "foo" "h" false].
Proof. split; vm_compute; reflexivity. Qed.

(** C4, amended.  While the store answers, every scheduled pass runs and
    the thread goes back to sleep; the first pass that raises ends the
    thread with that exception, the table as the last completed pass left
    it, whatever passes were scheduled after it. *)
Theorem background_thread_stops_at_error pre now rest (db : store) :
  Forall (λ p, p.2 = Reachable) pre →
  ∃ db1,
    background_thread pre db = Sleeping db1
    ∧ background_thread (pre ++ (now, Unreachable) :: rest) db
      = Terminated OperationalError db1.
Proof.
  intros Hall.
  destruct (background_thread_alive pre db Hall) as [db1 H1].
  exists db1. split; [done|].
  by rewrite (background_thread_app _ _ _ _ H1).
Qed.

Lemma background_thread_stops_at_error_witness :
  Forall (λ p : Z * store_status, p.2 = Reachable) [(995, Reachable)] ∧
  ∃ db1,
    background_thread [(995, Reachable)] [mkUser 1 0 900 900 "foo" "h" true]
    = Sleeping db1
    ∧ background_thread ([(995, Reachable)]
                         ++ (1000, Unreachable) :: [(1005, Reachable)])
        [mkUser 1 0 900 900 "foo" "h" true]
      = Terminated OperationalError db1.
Proof.
  assert (Forall (λ p : Z * store_status, p.2 = Reachable) [(995, Reachable)])
    as Hall by (repeat constructor).
  split; [exact Hall|].
  exact (background_thread_stops_at_error [(995, Reachable)] 1000
           [(1005, Reachable)] [mkUser 1 0 900 900 "foo" "h" true] Hall).
Defined.

(** ** The hook *)

Lemma query_get_replace_row uid row (db : store) :
  query_get uid (replace_row row db)
  = (λ r, if decide (id r = id row) then row else r) <$> query_get uid db.
Proof.
  unfold query_get, replace_row. induction db as [|r db IH]; [done|].
  rewrite fmap_cons, !filter_cons.
  destruct (decide (id r = id row)) as [Hr|Hr].
  - destruct (decide (id r = uid)) as [Hu|Hu].
    + rewrite decide_True by congruence. simpl. by rewrite decide_True.
    + rewrite decide_False by congruence. apply IH.
  - destruct (decide (id r = uid)) as [Hu|Hu]; simpl; [|apply IH].
    by rewrite decide_False.
Qed.

Lemma query_get_replace_row_ne uid row (db : store) :
  id row ≠ uid → query_get uid (replace_row row db) = query_get uid db.
Proof.
  intros Hne. rewrite query_get_replace_row.
  destruct (query_get uid db) as [r|] eqn:Hq; [|done]. simpl.
  apply query_get_Some in Hq as [_ Hid].
  rewrite decide_False; [done|congruence].
Qed.

Lemma flush_ping now (db : store) u :
  flush_all now [(u, ping now u)] db
  = Ok (if decide (u = ping now u) then db else replace_row (touch now u) db).
Proof.
  unfold touch. simpl. destruct (decide (u = ping now u)) as [Heq|Hne]; [done|].
  rewrite decide_False; [done|]. simpl. intros [Hn _]. by apply Hn.
Qed.

Lemma touch_id now u : id (touch now u) = id u.
Proof. unfold touch. by case_decide. Qed.

Lemma before_request_no_claims now (db : store) g :
  hook_user g = None → before_request now g db = Ok db.
Proof.
  unfold hook_user, before_request. destruct g as [claims|]; simpl; [|done].
  by intros ->.
Qed.

Lemma before_request_touches now (db : store) g uid :
  hook_user g = Some uid → uid ∈ id <$> db →
  ∃ db1, before_request now g db = Ok db1
         ∧ ∀ other, other ≠ uid → query_get other db1 = query_get other db.
Proof.
  unfold hook_user. destruct g as [claims|]; [|done].
  intros Hc Hin. simpl in Hc. unfold before_request. rewrite Hc.
  destruct (query_get uid db) as [u|] eqn:Hq.
  - rewrite flush_ping. eexists. split; [done|]. intros other Hne.
    case_decide; [done|]. apply query_get_replace_row_ne.
    rewrite touch_id. apply query_get_Some in Hq as [_ ->]. done.
  - by apply query_get_None in Hq.
Qed.

(** ** C6: the optional token gate *)



(** ** Registration and editing *)

Lemma first_by_nickname_None n (db : store) :
  first_by_nickname n db = None ↔ n ∉ nickname <$> db.
Proof.
  unfold first_by_nickname. induction db as [|r db IH]; simpl.
  - split; [intros _; apply not_elem_of_nil | done].
  - rewrite filter_cons. case_decide as Hr; simpl.
    + split; [done|]. intros []. subst. left.
    + rewrite IH, not_elem_of_cons.
      split; [intros ?; split; [congruence|done] | by intros [_ ?]].
Qed.

Lemma first_by_nickname_Some n (db : store) u :
  first_by_nickname n db = Some u → u ∈ db ∧ nickname u = n.
Proof.
  unfold first_by_nickname. intros H.
  apply head_Some_elem_of in H. by apply list_elem_of_filter in H as [? ?].
Qed.

Section Handlers.

Variable generate_password_hash : string → string.

Lemma create_complete data n p :
  data !! "nickname" = Some n → data !! "password" = Some p →
  create generate_password_hash data
  = Ok (mkAttrs (Some n) (Some (generate_password_hash p))).
Proof.
  intros Hn Hp. unfold create, from_dict. cbn [from_dict_loop].
  by rewrite Hn, Hp.
Qed.

Lemma from_dict_partial data u :
  from_dict generate_password_hash data true (attrs_of u)
  = Ok (mkAttrs (Some (default (nickname u) (data !! "nickname")))
          (Some (default (password_hash u)
                   (generate_password_hash <$> data !! "password")))).
Proof.
  unfold from_dict. cbn [from_dict_loop].
  by destruct (data !! "nickname"), (data !! "password").
Qed.

Lemma new_user_fresh now data n p (db : store) :
  data !! "nickname" = Some n → data !! "password" = Some p →
  n ∉ nickname <$> db →
  new_user generate_password_hash now data db
  = Ok (mkResponse 201
          (UserBody (to_dict (mkUser (next_id db) now now now n
                                (generate_password_hash p) false)))
          (Some (url_for_get_user (next_id db))),
        db ++ [mkUser (next_id db) now now now n
                 (generate_password_hash p) false]).
Proof.
  intros Hn Hp Hfresh. unfold new_user.
  rewrite (create_complete _ _ _ Hn Hp). simpl.
  rewrite (proj2 (first_by_nickname_None n db) Hfresh).
  unfold flush_insert. by rewrite decide_False.
Qed.


(** ** C5: editing somebody else *)

(** C5.  PUT /api/users/B with a token whose claims name A ≠ B, B being
    stored, is refused by the view with 403, whatever the body.  Over
    the whole request, when the claims the hook finds are absent or name
    a stored user other than B, the answer is 403 and B's row is the
    row it was; when they are absent the whole table is. *)
Theorem edit_user_other_forbidden now g claims A B data (db : store) u :
  query_get B db = Some u →
  claims !! "user_id" = Some A → A ≠ B →
  match hook_user g with
  | Some C => C ≠ B ∧ C ∈ id <$> db
  | None => True
  end →
  edit_user generate_password_hash now (ValidToken claims) B data db
  = Raise (HTTPException 403)
  ∧ ∃ db1,
      full_dispatch_request now g
        (edit_user generate_password_hash now (ValidToken claims) B data) db
      = (mkResponse 403 ErrorBody None, db1)
      ∧ query_get B db1 = Some u
      ∧ (hook_user g = None → db1 = db).
Proof.
  intros Hu Hc Hne Hg.
  assert (∀ db1 : store, query_get B db1 = Some u →
            edit_user generate_password_hash now (ValidToken claims) B data db1
            = Raise (HTTPException 403)) as Hview.
  { intros db1 Hq. unfold edit_user, token_auth, get_or_404.
    rewrite Hq. simpl. rewrite Hc.
    apply query_get_Some in Hq as [_ Hid].
    rewrite decide_True; [done|congruence]. }
  split; [by apply Hview|].
  unfold full_dispatch_request.
  destruct (hook_user g) as [C|] eqn:HC.
  - destruct Hg as [HCB HCin].
    destruct (before_request_touches now db g C HC HCin) as (db1 & -> & Hsame).
    exists db1. rewrite Hview; [|by rewrite Hsame]. simpl.
    split; [done|]. split; [by rewrite Hsame|done].
  - rewrite before_request_no_claims by done.
    exists db. by rewrite Hview.
Qed.

(** ** C9, C3: what an edit commits *)

Lemma edit_user_owner now claims uid data (db : store) u :
  query_get uid db = Some u → claims !! "user_id" = Some uid →
  edit_user generate_password_hash now (ValidToken claims) uid data db
  = db' ← flush_all now
            [(u, set_password_hash
                   (default (password_hash u)
                      (generate_password_hash <$> data !! "password"))
                   (set_nickname (default (nickname u) (data !! "nickname")) u))]
            db;
    Ok (mkResponse 204 NoContent None, db').
Proof.
  intros Hq Hc. unfold edit_user, token_auth, get_or_404.
  rewrite Hq. cbn [mbind result_bind]. rewrite Hc.
  pose proof (query_get_Some _ _ _ Hq) as [_ Hid].
  rewrite decide_False by (intros Hne; by apply Hne).
  by rewrite from_dict_partial.
Qed.

Lemma edit_user_nickname_taken now claims uid data n (db : store) u :
  query_get uid db = Some u → claims !! "user_id" = Some uid →
  data !! "nickname" = Some n → n ≠ nickname u → n ∈ nickname <$> db →
  edit_user generate_password_hash now (ValidToken claims) uid data db
  = Raise IntegrityError.
Proof.
  intros Hq Hc Hn Hne Hin.
  rewrite (edit_user_owner _ _ _ _ _ _ Hq Hc), Hn.
  cbn [flush_all flush_update default].
  rewrite decide_False.
  - by rewrite decide_True.
  - intros Heq. apply (f_equal nickname) in Heq. simpl in Heq. congruence.
Qed.

Lemma new_user_nickname_taken now data n (db : store) :
  data !! "nickname" = Some n → n ∈ nickname <$> db →
  new_user generate_password_hash now data db = Raise (HTTPException 400).
Proof.
  intros Hn Hin. unfold new_user.
  destruct (data !! "password") as [p|] eqn:Hp.
  - rewrite (create_complete _ _ _ Hn Hp). simpl.
    destruct (first_by_nickname n db) eqn:Hf; [done|].
    by apply first_by_nickname_None in Hf.
  - unfold create, from_dict. cbn [from_dict_loop]. by rewrite Hn, Hp.
Qed.

(** C9, amended.  No length check guards the nickname.  Whatever its
    length, a nickname that no stored user holds is registered with 201
    when the body has a password, and an edit by the owner that carries
    it answers 204 and stores it. *)
Theorem nickname_length_unchecked now data n (db : store) :
  data !! "nickname" = Some n → n ∉ nickname <$> db →
  (∀ p, data !! "password" = Some p →
     ∃ row,
       new_user generate_password_hash now data db
       = Ok (mkResponse 201 (UserBody (to_dict row))
               (Some (url_for_get_user (id row))), db ++ [row])
       ∧ nickname row = n)
  ∧ (∀ claims uid u,
       query_get uid db = Some u → claims !! "user_id" = Some uid →
       ∃ db',
         edit_user generate_password_hash now (ValidToken claims) uid data db
         = Ok (mkResponse 204 NoContent None, db')
         ∧ nickname <$> query_get uid db' = Some n).
Proof.
  intros Hn Hfresh. split.
  - intros p Hp.
    exists (mkUser (next_id db) now now now n (generate_password_hash p) false).
    split; [by apply new_user_fresh|done].
  - intros claims uid u Hq Hc.
    rewrite (edit_user_owner _ _ _ _ _ _ Hq Hc), Hn.
    cbn [flush_all flush_update default].
    pose proof (query_get_Some _ _ _ Hq) as [Hu Hid].
    rewrite decide_False.
    + rewrite decide_False by (by intros [_ ?]).
      eexists. split; [done|].
      rewrite query_get_replace_row, Hq. simpl.
      by rewrite decide_True.
    + intros Heq. apply Hfresh. apply (f_equal nickname) in Heq.
      simpl in Heq. rewrite <- Heq. by apply list_elem_of_fmap_2.
Qed.

End Handlers.

(** ** Closed instances *)


Lemma edit_user_other_forbidden_witness :
  (query_get 2 [mkUser 1 0 900 900 "foo" "h" true;
                mkUser 2 0 900 900 "bar" "h" false]
   = Some (mkUser 2 0 900 900 "bar" "h" false)
   ∧ claims_of 1 !! "user_id" = Some 1
   ∧ 1 ≠ 2
   ∧ 1 ∈ id <$> [mkUser 1 0 900 900 "foo" "h" true;
                 mkUser 2 0 900 900 "bar" "h" false]) ∧
  ∃ db1,
    full_dispatch_request 1000 (Some (claims_of 1))
      (edit_user sample_hash 1000 (ValidToken (claims_of 1)) 2
         {[ "nickname" := "bar2" ]})
      [mkUser 1 0 900 900 "foo" "h" true; mkUser 2 0 900 900 "bar" "h" false]
    = (mkResponse 403 ErrorBody None, db1)
    ∧ query_get 2 db1 = Some (mkUser 2 0 900 900 "bar" "h" false).
Proof.
  assert (1 ∈ id <$> [mkUser 1 0 900 900 "foo" "h" true;
                      mkUser 2 0 900 900 "bar" "h" false]) as Hin.
  { apply (bool_decide_unpack (_ ∈ _)). vm_compute. exact I. }
  assert (query_get 2 [mkUser 1 0 900 900 "foo" "h" true;
                       mkUser 2 0 900 900 "bar" "h" false]
          = Some (mkUser 2 0 900 900 "bar" "h" false)) as Hq
    by (vm_compute; reflexivity).
  assert (claims_of 1 !! "user_id" = Some 1) as Hc
    by (vm_compute; reflexivity).
  split; [split; [exact Hq|split; [exact Hc|split; [lia|exact Hin]]]|].
  assert (hook_user (Some (claims_of 1)) = Some 1) as Hh
    by (vm_compute; reflexivity).
  assert (match hook_user (Some (claims_of 1)) with
          | Some C => C ≠ 2 ∧ C ∈ id <$> [mkUser 1 0 900 900 "foo" "h" true;
                                         mkUser 2 0 900 900 "bar" "h" false]
          | None => True
          end) as Hg.
  { rewrite Hh. split; [lia|exact Hin]. }
  destruct (edit_user_other_forbidden sample_hash 1000
              (Some (claims_of 1)) _ 1 2 {[ "nickname" := "bar2" ]}
              _ _ Hq Hc ltac:(lia) Hg)
    as (_ & db1 & H1 & H2 & _).
  exists db1. split; [exact H1|exact H2].
Defined.

(** The claim as stated fails: an empty nickname and one of 33
    characters are registered with 201, and the owner's edit to an empty
    nickname is committed with 204. *)
Lemma malformed_nickname_accepted :
  new_user sample_hash 1000 {[ "nickname" := ""; "password" := "secret" ]} []
  = Ok (mkResponse 201
          (UserBody (to_dict (mkUser 1 1000 1000 1000 ""
                                "pbkdf2:sha256$secret" false)))
          (Some "/api/users/1"),
        [mkUser 1 1000 1000 1000 "" "pbkdf2:sha256$secret" false])
  ∧ new_user sample_hash 1000
      {[ "nickname" := "abcdefghijklmnopqrstuvwxyz0123456";
         "password" := "secret" ]} []
    = Ok (mkResponse 201
            (UserBody (to_dict (mkUser 1 1000 1000 1000
                                  "abcdefghijklmnopqrstuvwxyz0123456"
                                  "pbkdf2:sha256$secret" false)))
            (Some "/api/users/1"),
          [mkUser 1 1000 1000 1000 "abcdefghijklmnopqrstuvwxyz0123456"
             "pbkdf2:sha256$secret" false])
  ∧ full_dispatch_request 1000 None
      (edit_user sample_hash 1000 (ValidToken (claims_of 1)) 1
         {[ "nickname" := "" ]})
      [mkUser 1 0 900 900 "foo" "h" false]
    = (mkResponse 204 NoContent None, [mkUser 1 0 1000 900 "" "h" false]).
Proof. repeat split; vm_compute; reflexivity. Qed.

Lemma nickname_length_unchecked_witness :
  (({[ "nickname" := ""; "password" := "secret" ]} : gmap string string)
     !! "nickname" = Some ""
   ∧ "" ∉ nickname <$> [mkUser 1 0 900 900 "foo" "h" false]) ∧
  (∃ row,
     new_user sample_hash 1000 {[ "nickname" := ""; "password" := "secret" ]}
       [mkUser 1 0 900 900 "foo" "h" false]
     = Ok (mkResponse 201 (UserBody (to_dict row))
             (Some (url_for_get_user (id row))),
           [mkUser 1 0 900 900 "foo" "h" false] ++ [row])
     ∧ nickname row = "")
  ∧ ∃ db',
      edit_user sample_hash 1000 (ValidToken (claims_of 1)) 1
        {[ "nickname" := ""; "password" := "secret" ]}
        [mkUser 1 0 900 900 "foo" "h" false]
      = Ok (mkResponse 204 NoContent None, db')
      ∧ nickname <$> query_get 1 db' = Some "".
Proof.
  assert ("" ∉ nickname <$> [mkUser 1 0 900 900 "foo" "h" false]) as Hfresh.
  { apply (bool_decide_unpack (_ ∉ _)). vm_compute. exact I. }
  assert (({[ "nickname" := ""; "password" := "secret" ]} : gmap string string)
            !! "nickname" = Some "") as Hn by (vm_compute; reflexivity).
  assert (({[ "nickname" := ""; "password" := "secret" ]} : gmap string string)
            !! "password" = Some "secret") as Hp by (vm_compute; reflexivity).
  assert (query_get 1 [mkUser 1 0 900 900 "foo" "h" false]
          = Some (mkUser 1 0 900 900 "foo" "h" false)) as Hq
    by (vm_compute; reflexivity).
  assert (claims_of 1 !! "user_id" = Some 1) as Hc
    by (vm_compute; reflexivity).
  split; [split; [exact Hn|exact Hfresh]|].
  destruct (nickname_length_unchecked sample_hash 1000 _ "" _ Hn Hfresh)
    as [Hnew Hedit].
  split.
  - exact (Hnew "secret" Hp).
  - exact (Hedit _ 1 _ Hq Hc).
Defined.

(** C3, where the code departs from the claim.  User 1 edits their
    nickname to the one user 2 holds: [edit_user] has no check of its
    own, the commit breaks the UNIQUE constraint, and the request ends in
    500 where [new_user] answers 400; the table is left as it was. *)
Theorem edit_user_duplicate_nickname_500 :
  full_dispatch_request 1000 None
    (edit_user sample_hash 1000 (ValidToken (claims_of 1)) 1
       {[ "nickname" := "bar" ]})
    [mkUser 1 0 900 900 "foo" "h" false; mkUser 2 0 900 900 "bar" "h" false]
  = (mkResponse 500 ErrorBody None,
     [mkUser 1 0 900 900 "foo" "h" false; mkUser 2 0 900 900 "bar" "h" false])
  ∧ full_dispatch_request 1000 None
      (new_user sample_hash 1000 {[ "nickname" := "bar"; "password" := "x" ]})
      [mkUser 1 0 900 900 "foo" "h" false; mkUser 2 0 900 900 "bar" "h" false]
    = (mkResponse 400 ErrorBody None,
       [mkUser 1 0 900 900 "foo" "h" false;
        mkUser 2 0 900 900 "bar" "h" false]).
Proof. split; vm_compute; reflexivity. Qed.

(** * Further properties of the service *)

(** ** What a commit does to the table *)

Lemma flush_update_cases now (db db' : store) orig new :
  flush_update now db (orig, new) = Ok db' →
  (orig = new ∧ db' = db)
  ∨ (orig ≠ new ∧ db' = replace_row (set_updated_at now new) db
     ∧ (nickname new = nickname orig ∨ nickname new ∉ nickname <$> db)).
Proof.
  unfold flush_update. destruct (decide (orig = new)) as [Heq|Hne].
  - intros [= <-]. by left.
  - case_decide as Hviol; [done|]. intros [= <-]. right.
    split; [done|]. split; [done|].
    destruct (decide (nickname new = nickname orig)); [by left|right].
    intros Hin. by apply Hviol.
Qed.

Lemma flush_one now (db : store) ch :
  flush_all now [ch] db = flush_update now db ch.
Proof. simpl. by destruct (flush_update now db ch). Qed.


Lemma replace_row_split l1 orig l2 row :
  NoDup (id <$> (l1 ++ orig :: l2)) → id row = id orig →
  replace_row row (l1 ++ orig :: l2) = l1 ++ row :: l2.
Proof.
  intros Hnd Hid. rewrite fmap_app, fmap_cons in Hnd.
  apply NoDup_app in Hnd as (_ & Hl1 & Hnd).
  apply NoDup_cons in Hnd as [Hl2 _].
  unfold replace_row. rewrite fmap_app, fmap_cons.
  rewrite decide_True by done.
  fold (replace_row row l1). fold (replace_row row l2).
  rewrite !replace_row_absent; [done| |].
  - by rewrite Hid.
  - rewrite Hid. intros Hin. apply (Hl1 _ Hin). left.
Qed.

Lemma replace_row_keys (db : store) orig row :
  keys_unique db → orig ∈ db → id row = id orig →
  nickname row = nickname orig ∨ nickname row ∉ nickname <$> db →
  keys_unique (replace_row row db).
Proof.
  intros [Hids Hnicks] Horig Hid Hnick. split.
  - by rewrite replace_row_ids.
  - apply list_elem_of_split in Horig as (l1 & l2 & ->).
    rewrite replace_row_split by done.
    rewrite fmap_app, fmap_cons in Hnicks |- *.
    destruct Hnick as [->|Hfresh]; [done|].
    rewrite fmap_app, fmap_cons in Hfresh.
    apply NoDup_app in Hnicks as (H1 & H12 & H2).
    apply NoDup_cons in H2 as [_ H2].
    apply NoDup_app. split; [done|]. split.
    + intros n Hn1 Hn2. apply elem_of_cons in Hn2 as [->|Hn2].
      * apply Hfresh. apply elem_of_app. by left.
      * apply (H12 n Hn1). by right.
    + apply NoDup_cons. split; [|done].
      intros Hin. apply Hfresh. apply elem_of_app. right. by right.
Qed.

Lemma next_id_above (db : store) u : u ∈ db → id u < next_id db.
Proof.
  unfold next_id. induction db as [|r db IH]; intros Hu.
  - by apply elem_of_nil in Hu.
  - rewrite fmap_cons. cbn [foldr].
    apply elem_of_cons in Hu as [->|Hu]; [lia|].
    specialize (IH Hu). lia.
Qed.

Lemma next_id_fresh (db : store) : next_id db ∉ id <$> db.
Proof.
  intros Hin. apply list_elem_of_fmap in Hin as (u & Heq & Hu).
  pose proof (next_id_above db u Hu). lia.
Qed.

Lemma flush_update_keys now (db db' : store) orig new :
  keys_unique db → orig ∈ db → id new = id orig →
  flush_update now db (orig, new) = Ok db' → keys_unique db'.
Proof.
  intros Hk Horig Hid Hf.
  apply flush_update_cases in Hf as [[_ ->]|(_ & -> & Hnick)]; [done|].
  by apply (replace_row_keys db orig).
Qed.

Lemma flush_insert_keys now n h (db db' : store) row :
  keys_unique db → flush_insert now n h db = Ok (row, db') →
  keys_unique db' ∧ db' = (db ++ [row]) ∧ (id row ∉ id <$> db)
  ∧ nickname row = n ∧ (n ∉ nickname <$> db).
Proof.
  intros [Hids Hnicks]. unfold flush_insert.
  case_decide as Hn; [done|]. intros [= <- <-]. simpl.
  split; [|by auto using next_id_fresh].
  split; rewrite fmap_app; simpl; apply NoDup_app; (split; [done|]).
  - split; [|apply NoDup_singleton].
    intros i Hi Hi'. apply list_elem_of_singleton in Hi' as ->.
    by apply (next_id_fresh db).
  - split; [|apply NoDup_singleton].
    intros m Hm Hm'. by apply list_elem_of_singleton in Hm' as ->.
Qed.

(** ** What a request commits *)

Lemma commits_keys now (db db' : store) :
  keys_unique db → commits now db db' → keys_unique db'.
Proof.
  intros Hk [|n h Hfresh|orig new db1 Horig Hid _ _ _ Hf]; [done| |].
  - eapply proj1, (flush_insert_keys now n h db); [done|].
    unfold flush_insert. by rewrite decide_False.
  - by eapply flush_update_keys.
Qed.



Lemma before_request_commits now g (db db1 : store) :
  before_request now g db = Ok db1 → commits now db db1.
Proof.
  unfold before_request. destruct g as [claims|]; [|intros [= <-]; constructor].
  destruct (claims !! "user_id") as [uid|]; [|intros [= <-]; constructor].
  destruct (query_get uid db) as [user|] eqn:Hq; [|done].
  rewrite flush_one. intros Hf.
  apply query_get_Some in Hq as [Hin _].
  refine (commits_update now db user (ping now user) db1 Hin _ _ _ _ Hf);
    simpl; auto.
Qed.

Lemma get_users_reads tok args (db db' : store) r :
  get_users tok args db = Ok (r, db') → db' = db.
Proof.
  unfold get_users, token_optional_auth.
  destruct tok; try (by intros [= _ <-]);
    destruct (filter_updated_since args (filter_online args db));
    simpl; by intros [= _ <-].
Qed.

Lemma get_user_reads tok uid (db db' : store) r :
  get_user tok uid db = Ok (r, db') → db' = db.
Proof.
  unfold get_user, token_optional_auth, get_or_404.
  destruct tok; try (by intros [= _ <-]);
    destruct (query_get uid db); simpl; by intros [= _ <-].
Qed.

Section Routes.

Variable generate_password_hash : string → string.
Variable check_password_hash : string → string → bool.

Lemma new_user_commits now data (db db' : store) r :
  new_user generate_password_hash now data db = Ok (r, db') →
  commits now db db'.
Proof.
  unfold new_user.
  destruct (create generate_password_hash data) as [a|]; [|done]. simpl.
  destruct (a_nickname a) as [n|], (a_password_hash a) as [h|]; try done.
  destruct (first_by_nickname n db) eqn:Hf; [done|].
  apply first_by_nickname_None in Hf.
  unfold flush_insert. rewrite decide_False by done. simpl.
  intros [= _ <-]. by constructor.
Qed.

Lemma edit_user_commits now tok uid data (db db' : store) r :
  edit_user generate_password_hash now tok uid data db = Ok (r, db') →
  commits now db db'.
Proof.
  unfold edit_user, token_auth.
  destruct tok as [| |claims]; try (intros [= _ <-]; constructor).
  unfold get_or_404. destruct (query_get uid db) as [user|] eqn:Hq; [|done].
  cbn [mbind result_bind].
  destruct (claims !! "user_id") as [caller|]; [|done].
  case_decide; [done|]. rewrite from_dict_partial.
  cbn [mbind result_bind]. rewrite flush_one.
  destruct (flush_update now db _) as [db1|] eqn:Hf; [|done].
  simpl. intros [= _ <-].
  apply query_get_Some in Hq as [Hin _].
  refine (commits_update now db user _ db1 Hin _ _ _ _ Hf); simpl; auto.
Qed.

Lemma verify_password_commits now nick password (db db' : store) cu :
  verify_password check_password_hash now nick password db = Ok (cu, db') →
  commits now db db'.
Proof.
  unfold verify_password. case_decide; [intros [= _ <-]; constructor|].
  destruct (first_by_nickname nick db) as [user|] eqn:Hq;
    [|intros [= _ <-]; constructor].
  destruct (check_password_hash (password_hash user) password);
    [|intros [= _ <-]; constructor].
  rewrite flush_one.
  destruct (flush_update now db _) as [db1|] eqn:Hf; [|done].
  simpl. intros [= _ <-].
  apply first_by_nickname_Some in Hq as [Hin _].
  refine (commits_update now db user (ping now user) db1 Hin _ _ _ _ Hf);
    simpl; auto.
Qed.

Lemma view_of_commits now req (db db' : store) r :
  view_of generate_password_hash check_password_hash now req db = Ok (r, db') →
  commits now db db'.
Proof.
  destruct req as [data|tok args|tok uid|tok uid data|auth]; simpl.
  - apply new_user_commits.
  - intros H. apply get_users_reads in H as ->. constructor.
  - intros H. apply get_user_reads in H as ->. constructor.
  - apply edit_user_commits.
  - unfold get_me_user. destruct auth as [[nick password]|];
      [|intros [= _ <-]; constructor].
    destruct (verify_password check_password_hash now nick password db)
      as [[cu db1]|] eqn:Hv; [|done].
    simpl. intros H. apply verify_password_commits in Hv.
    by destruct cu; injection H as _ <-.
Qed.

End Routes.

(** ** Invariants of the table *)


Section Histories.

Variable generate_password_hash : string → string.
Variable check_password_hash : string → string → bool.

Lemma full_dispatch_request_commits now g req (db : store) :
  ∃ db1,
    commits now db db1
    ∧ commits now db1
        (full_dispatch_request now g
           (view_of generate_password_hash check_password_hash now req) db).2.
Proof.
  unfold full_dispatch_request.
  destruct (before_request now g db) as [db1|e] eqn:Hb.
  - apply before_request_commits in Hb. exists db1. split; [done|].
    destruct (view_of _ _ now req db1) as [[r db2]|e] eqn:Hv; simpl.
    + by eapply view_of_commits.
    + constructor.
  - exists db. split; constructor.
Qed.



(** However the requests and the passes of the loop follow each other
    from an empty table, no two rows share a primary key and no two rows
    share a nickname. *)
Theorem run_keys_unique evs :
  keys_unique (run generate_password_hash check_password_hash evs []).
Proof.
  assert (∀ (db : store), keys_unique db →
            keys_unique
              (run generate_password_hash check_password_hash evs db)) as H.
  { induction evs as [|ev evs IH]; intros db Hk; [done|].
    unfold run. cbn [foldl]. apply IH.
    destruct ev as [now g req|now]; simpl.
    - destruct (full_dispatch_request_commits now g req db)
        as (db1 & H1 & H2).
      eapply commits_keys; [|exact H2]. by eapply commits_keys.
    - destruct Hk as [Hids Hnicks].
      rewrite find_offline_users_rows by done. split.
      + rewrite <- list_fmap_compose.
        erewrite list_fmap_ext; [exact Hids|]. intros i u _. simpl.
        by case_decide.
      + rewrite <- list_fmap_compose.
        erewrite list_fmap_ext; [exact Hnicks|]. intros i u _. simpl.
        by case_decide. }
  apply H. split; constructor.
Qed.


End Histories.


(** ** Password login *)

Lemma query_get_present uid (db : store) :
  uid ∈ id <$> db → ∃ r, query_get uid db = Some r.
Proof.
  intros Hin. destruct (query_get uid db) as [r|] eqn:Hq; [by eexists|].
  by apply query_get_None in Hq.
Qed.

Lemma touched_row now (db : store) u :
  NoDup (id <$> db) → u ∈ db →
  ∃ db',
    flush_all now [(u, ping now u)] db = Ok db'
    ∧ query_get (id u) db' = Some (touch now u)
    ∧ (∀ other, other ≠ id u → query_get other db' = query_get other db)
    ∧ id <$> db' = id <$> db.
Proof.
  intros Hnd Hu. rewrite flush_ping. eexists. split; [done|].
  pose proof (query_get_stored db u Hnd Hu) as Hq.
  unfold touch. destruct (decide (u = ping now u)) as [Heq|Hne].
  - done.
  - split; [|split].
    + rewrite query_get_replace_row, Hq. simpl. by rewrite decide_True.
    + intros other Hne'. by apply query_get_replace_row_ne.
    + apply replace_row_ids.
Qed.

Section Login.

Variable check_password_hash : string → string → bool.

(** GET /api/users/me without credentials, with an empty nickname or
    password, with a nickname no user has, or with a password the stored
    hash does not verify, answers 401 and writes nothing. *)
Theorem get_me_user_rejected now auth (db : store) :
  match auth with
  | None => True
  | Some (nick, password) =>
      nick = "" ∨ password = ""
      ∨ ∀ u, first_by_nickname nick db = Some u →
             check_password_hash (password_hash u) password = false
  end →
  get_me_user check_password_hash now auth db = Ok (password_error, db)
  ∧ status password_error = 401.
Proof.
  intros Hbad. split; [|done]. unfold get_me_user.
  destruct auth as [[nick password]|]; [|done].
  unfold verify_password.
  destruct (decide (nick = "" ∨ password = "")) as [|Hne]; [done|].
  destruct Hbad as [?|[?|Hbad]]; [by destruct Hne; left|by destruct Hne; right|].
  destruct (first_by_nickname nick db) as [u|]; [|done].
  by rewrite (Hbad u eq_refl).
Qed.

Lemma touch_fields now u :
  online (touch now u) = true ∧ last_seen_at (touch now u) = now
  ∧ id (touch now u) = id u ∧ nickname (touch now u) = nickname u
  ∧ created_at (touch now u) = created_at u
  ∧ password_hash (touch now u) = password_hash u.
Proof.
  unfold touch. case_decide as Heq; simpl; [|done].
  pose proof (f_equal online Heq) as Hon.
  pose proof (f_equal last_seen_at Heq) as Hls. simpl in Hon, Hls.
  done.
Qed.

Lemma verify_password_accepts now nick password (db : store) u :
  NoDup (id <$> db) → nick ≠ "" → password ≠ "" →
  first_by_nickname nick db = Some u →
  check_password_hash (password_hash u) password = true →
  ∃ db',
    verify_password check_password_hash now nick password db
    = Ok (Some (touch now u), db')
    ∧ query_get (id u) db' = Some (touch now u)
    ∧ ∀ other, other ≠ id u → query_get other db' = query_get other db.
Proof.
  intros Hnd Hn Hp Hf Hc.
  pose proof (first_by_nickname_Some _ _ _ Hf) as [Hu _].
  destruct (touched_row now db u Hnd Hu) as (db' & Hfl & Hq & Hsame & _).
  exists db'. unfold verify_password.
  rewrite decide_False by (intros [?|?]; done).
  rewrite Hf, Hc, Hfl. cbn [mbind result_bind]. by rewrite Hq.
Qed.

(** GET /api/users/me with the nickname of a stored user and a password
    its hash verifies answers 200 with that user's record, now online
    and seen at the time of the request; the row is committed so, and no
    other row changes. *)
Theorem get_me_user_accepted now nick password (db : store) u :
  NoDup (id <$> db) → nick ≠ "" → password ≠ "" →
  first_by_nickname nick db = Some u →
  check_password_hash (password_hash u) password = true →
  ∃ u' db',
    get_me_user check_password_hash now (Some (nick, password)) db
    = Ok (mkResponse 200 (UserBody (to_dict u')) None, db')
    ∧ query_get (id u) db' = Some u'
    ∧ online u' = true ∧ last_seen_at u' = now
    ∧ id u' = id u ∧ nickname u' = nick ∧ created_at u' = created_at u
    ∧ password_hash u' = password_hash u
    ∧ ∀ other, other ≠ id u → query_get other db' = query_get other db.
Proof.
  intros Hnd Hn Hp Hf Hc.
  destruct (verify_password_accepts now nick password db u Hnd Hn Hp Hf Hc)
    as (db' & Hv & Hq & Hsame).
  pose proof (first_by_nickname_Some _ _ _ Hf) as [_ Hnick].
  pose proof (touch_fields now u) as (Hon & Hls & Hid & Hnk & Hcr & Hph).
  exists (touch now u), db'. unfold get_me_user. rewrite Hv.
  cbn [mbind result_bind]. rewrite Hnk, Hnick. by auto 10.
Qed.

End Login.

Lemma get_me_user_rejected_witness :
  (∀ u, first_by_nickname "foo" [mkUser 1 0 900 900 "foo" "pbkdf2:sha256$foo"
                                   false] = Some u →
        sample_check (password_hash u) "bar" = false) ∧
  get_me_user sample_check 1000 (Some ("foo", "bar"))
    [mkUser 1 0 900 900 "foo" "pbkdf2:sha256$foo" false]
  = Ok (password_error, [mkUser 1 0 900 900 "foo" "pbkdf2:sha256$foo" false]).
Proof.
  assert (∀ u, first_by_nickname "foo"
                 [mkUser 1 0 900 900 "foo" "pbkdf2:sha256$foo" false] = Some u →
               sample_check (password_hash u) "bar" = false) as Hbad.
  { intros u Hu. vm_compute in Hu. injection Hu as <-. vm_compute.
    reflexivity. }
  split; [exact Hbad|].
  exact (proj1 (get_me_user_rejected sample_check 1000 (Some ("foo", "bar")) _
                  (or_intror (or_intror Hbad)))).
Defined.

Lemma get_me_user_accepted_witness :
  (NoDup (id <$> [mkUser 1 0 900 900 "foo" "pbkdf2:sha256$foo" false])
   ∧ "foo" ≠ "" ∧
   first_by_nickname "foo" [mkUser 1 0 900 900 "foo" "pbkdf2:sha256$foo" false]
   = Some (mkUser 1 0 900 900 "foo" "pbkdf2:sha256$foo" false)
   ∧ sample_check "pbkdf2:sha256$foo" "foo" = true) ∧
  ∃ u' db',
    get_me_user sample_check 1000 (Some ("foo", "foo"))
      [mkUser 1 0 900 900 "foo" "pbkdf2:sha256$foo" false]
    = Ok (mkResponse 200 (UserBody (to_dict u')) None, db')
    ∧ online u' = true ∧ last_seen_at u' = 1000.
Proof.
  assert (NoDup (id <$> [mkUser 1 0 900 900 "foo" "pbkdf2:sha256$foo" false]))
    as Hnd by (apply (bool_decide_unpack (NoDup _)); vm_compute; exact I).
  assert (first_by_nickname "foo"
            [mkUser 1 0 900 900 "foo" "pbkdf2:sha256$foo" false]
          = Some (mkUser 1 0 900 900 "foo" "pbkdf2:sha256$foo" false)) as Hf
    by (vm_compute; reflexivity).
  assert (sample_check "pbkdf2:sha256$foo" "foo" = true) as Hc
    by (vm_compute; reflexivity).
  split; [split; [exact Hnd|split; [discriminate|split; [exact Hf|exact Hc]]]|].
  destruct (get_me_user_accepted sample_check 1000 "foo" "foo" _ _ Hnd
              ltac:(discriminate) ltac:(discriminate) Hf Hc)
    as (u' & db' & H1 & _ & H2 & H3 & _).
  exists u', db'. split; [exact H1|]. split; [exact H2|exact H3].
Defined.

(** ** Registration: errors and round trips *)

Lemma head_filter_app_fresh {A} (P : A → Prop) `{!∀ x, Decision (P x)}
    (l : list A) x :
  Forall (λ y, ¬ P y) l → P x → head (filter P (l ++ [x])) = Some x.
Proof.
  intros Hl Hx. induction Hl as [|y l Hy _ IH]; simpl.
  - by rewrite filter_cons, decide_True.
  - by rewrite filter_cons, decide_False.
Qed.

Lemma query_get_appended (db : store) row :
  id row = next_id db → query_get (id row) (db ++ [row]) = Some row.
Proof.
  intros Hid. unfold query_get. apply head_filter_app_fresh; [|done].
  apply Forall_forall. intros u Hu Heq.
  pose proof (next_id_above db u Hu). lia.
Qed.

Lemma first_by_nickname_appended (db : store) row :
  nickname row ∉ nickname <$> db →
  first_by_nickname (nickname row) (db ++ [row]) = Some row.
Proof.
  intros Hfresh. unfold first_by_nickname.
  apply head_filter_app_fresh; [|done].
  apply Forall_forall. intros u Hu Heq. apply Hfresh. rewrite <- Heq.
  by apply list_elem_of_fmap_2.
Qed.

Section Registration.

Variable generate_password_hash : string → string.
Variable check_password_hash : string → string → bool.

Lemma new_user_missing_field now data (db : store) :
  data !! "nickname" = None ∨ data !! "password" = None →
  new_user generate_password_hash now data db = Raise (HTTPException 400).
Proof.
  intros Hmiss. unfold new_user, create, from_dict. cbn [from_dict_loop].
  destruct (data !! "nickname"), (data !! "password");
    try done; by destruct Hmiss.
Qed.

Lemma new_user_created_inv now data (db db' : store) r :
  new_user generate_password_hash now data db = Ok (r, db') →
  ∃ n p,
    data !! "nickname" = Some n ∧ data !! "password" = Some p
    ∧ (n ∉ nickname <$> db)
    ∧ db' = db ++ [mkUser (next_id db) now now now n
                     (generate_password_hash p) false]
    ∧ r = mkResponse 201
            (UserBody (to_dict (mkUser (next_id db) now now now n
                                  (generate_password_hash p) false)))
            (Some (url_for_get_user (next_id db))).
Proof.
  intros Hnew.
  destruct (data !! "nickname") as [n|] eqn:Hn;
    [|by rewrite new_user_missing_field in Hnew by (by left)].
  destruct (data !! "password") as [p|] eqn:Hp;
    [|by rewrite new_user_missing_field in Hnew by (by right)].
  destruct (decide (n ∈ nickname <$> db)) as [Hin|Hfresh].
  - by rewrite (new_user_nickname_taken _ _ _ n db Hn Hin) in Hnew.
  - rewrite (new_user_fresh _ _ _ n p db Hn Hp Hfresh) in Hnew.
    injection Hnew as <- <-. by exists n, p.
Qed.


(** The record a registration returns is the one GET finds at the id of
    its Location, whether the reader sends a valid token or none. *)
Theorem new_user_then_get_user now data tok (db db' : store) r :
  new_user generate_password_hash now data db = Ok (r, db') →
  tok ≠ InvalidToken →
  ∃ d,
    status r = 201 ∧ body r = UserBody d
    ∧ location r = Some (url_for_get_user (d_id d))
    ∧ get_user tok (d_id d) db' = Ok (mkResponse 200 (UserBody d) None, db').
Proof.
  intros Hnew Htok.
  apply new_user_created_inv in Hnew as (n & p & _ & _ & _ & -> & ->).
  eexists. split; [done|]. split; [done|]. split; [done|].
  unfold get_user, token_optional_auth, get_or_404. simpl.
  pose proof (query_get_appended db
                (mkUser (next_id db) now now now n
                   (generate_password_hash p) false) eq_refl) as Hq.
  simpl in Hq. rewrite Hq. by destruct tok.
Qed.

(** Who registered can log in: on a table with unique keys, after a
    registration with a non-empty nickname and password, a password
    login with the same pair at [now'] answers 200 with the record of
    the user just created, online and seen at [now'], provided the hash
    of the password verifies against the password. *)
Theorem new_user_then_get_me_user now now' data n p (db db' : store) r :
  keys_unique db →
  new_user generate_password_hash now data db = Ok (r, db') →
  data !! "nickname" = Some n → data !! "password" = Some p →
  n ≠ "" → p ≠ "" →
  check_password_hash (generate_password_hash p) p = true →
  ∃ d db'',
    get_me_user check_password_hash now' (Some (n, p)) db'
    = Ok (mkResponse 200 (UserBody d) None, db'')
    ∧ location r = Some (url_for_get_user (d_id d))
    ∧ d_nickname d = n ∧ d_online d = true ∧ d_last_seen_at d = now'
    ∧ d_created_at d = now.
Proof.
  intros Hk Hnew Hn Hp Hne Hpe Hc.
  pose proof (commits_keys now db db' Hk (new_user_commits _ _ _ _ _ _ Hnew))
    as [Hids _].
  apply new_user_created_inv in Hnew as (n' & p' & Hn' & Hp' & Hfresh & -> & ->).
  assert (n' = n) as -> by congruence. assert (p' = p) as -> by congruence.
  set (row := mkUser (next_id db) now now now n (generate_password_hash p) false)
    in *.
  destruct (verify_password_accepts check_password_hash now' n p _ row
              Hids Hne Hpe) as (db'' & Hv & _).
  - by apply (first_by_nickname_appended db row).
  - done.
  - pose proof (touch_fields now' row) as (Hon & Hls & Hid & Hnk & Hcr & _).
    exists (to_dict (touch now' row)), db''. unfold get_me_user. rewrite Hv.
    cbn [mbind result_bind]. split; [done|]. simpl.
    rewrite Hid, Hon, Hls, Hnk, Hcr. done.
Qed.

End Registration.

Lemma new_user_then_get_user_witness :
  (new_user sample_hash 1000 {[ "nickname" := "foo"; "password" := "bar" ]} []
   = Ok (mkResponse 201
           (UserBody (to_dict (mkUser 1 1000 1000 1000 "foo"
                                 "pbkdf2:sha256$bar" false)))
           (Some "/api/users/1"),
         [mkUser 1 1000 1000 1000 "foo" "pbkdf2:sha256$bar" false])
   ∧ NoToken ≠ InvalidToken) ∧
  ∃ d,
    location (mkResponse 201
                (UserBody (to_dict (mkUser 1 1000 1000 1000 "foo"
                                      "pbkdf2:sha256$bar" false)))
                (Some "/api/users/1"))
    = Some (url_for_get_user (d_id d))
    ∧ get_user NoToken (d_id d)
        [mkUser 1 1000 1000 1000 "foo" "pbkdf2:sha256$bar" false]
      = Ok (mkResponse 200 (UserBody d) None,
            [mkUser 1 1000 1000 1000 "foo" "pbkdf2:sha256$bar" false]).
Proof.
  assert (new_user sample_hash 1000
            {[ "nickname" := "foo"; "password" := "bar" ]} []
          = Ok (mkResponse 201
                  (UserBody (to_dict (mkUser 1 1000 1000 1000 "foo"
                                        "pbkdf2:sha256$bar" false)))
                  (Some "/api/users/1"),
                [mkUser 1 1000 1000 1000 "foo" "pbkdf2:sha256$bar" false]))
    as Hnew by (vm_compute; reflexivity).
  split; [split; [exact Hnew|discriminate]|].
  destruct (new_user_then_get_user sample_hash 1000 _ NoToken _ _ _ Hnew
              ltac:(discriminate)) as (d & _ & _ & H1 & H2).
  exists d. split; [exact H1|exact H2].
Defined.

Lemma new_user_then_get_me_user_witness :
  ∃ d db'',
    get_me_user sample_check 1060 (Some ("foo", "bar"))
      [mkUser 1 1000 1000 1000 "foo" "pbkdf2:sha256$bar" false]
    = Ok (mkResponse 200 (UserBody d) None, db'')
    ∧ d_nickname d = "foo" ∧ d_online d = true ∧ d_last_seen_at d = 1060.
Proof.
  assert (new_user sample_hash 1000
            {[ "nickname" := "foo"; "password" := "bar" ]} []
          = Ok (mkResponse 201
                  (UserBody (to_dict (mkUser 1 1000 1000 1000 "foo"
                                        "pbkdf2:sha256$bar" false)))
                  (Some "/api/users/1"),
                [mkUser 1 1000 1000 1000 "foo" "pbkdf2:sha256$bar" false]))
    as Hnew by (vm_compute; reflexivity).
  assert (({[ "nickname" := "foo"; "password" := "bar" ]} : gmap string string)
            !! "nickname" = Some "foo") as Hn by (vm_compute; reflexivity).
  assert (({[ "nickname" := "foo"; "password" := "bar" ]} : gmap string string)
            !! "password" = Some "bar") as Hp by (vm_compute; reflexivity).
  assert (sample_check (sample_hash "bar") "bar" = true) as Hc
    by (vm_compute; reflexivity).
  destruct (new_user_then_get_me_user sample_hash sample_check 1000 1060 _
              "foo" "bar" [] _ _ (conj NoDup_nil_2 NoDup_nil_2)
              Hnew Hn Hp ltac:(discriminate) ltac:(discriminate) Hc)
    as (d & db'' & H1 & _ & H2 & H3 & H4 & _).
  exists d, db''. split; [exact H1|]. split; [exact H2|].
  split; [exact H3|exact H4].
Defined.

(** ** The hook and the edit: errors and frame *)

(** When the claims in [flask.g] name a user that is not stored, the
    request ends in 500 whatever its route: the view is not called and
    nothing is written. *)
Theorem dangling_claims_500 now g view (db : store) uid :
  hook_user g = Some uid → uid ∉ id <$> db →
  full_dispatch_request now g view db = (mkResponse 500 ErrorBody None, db).
Proof.
  intros Hg Hout. unfold full_dispatch_request, before_request.
  unfold hook_user in Hg. destruct g as [claims|]; [|done]. simpl in Hg.
  rewrite Hg. by rewrite (proj2 (query_get_None uid db) Hout).
Qed.

Lemma dangling_claims_500_witness :
  (hook_user (Some (claims_of 7)) = Some 7
   ∧ 7 ∉ id <$> [mkUser 1 0 900 900 "foo" "h" false]) ∧
  full_dispatch_request 1000 (Some (claims_of 7)) (get_users NoToken ∅)
    [mkUser 1 0 900 900 "foo" "h" false]
  = (mkResponse 500 ErrorBody None, [mkUser 1 0 900 900 "foo" "h" false]).
Proof.
  assert (hook_user (Some (claims_of 7)) = Some 7) as Hg
    by (vm_compute; reflexivity).
  assert (7 ∉ id <$> [mkUser 1 0 900 900 "foo" "h" false]) as Hout
    by (apply (bool_decide_unpack (_ ∉ _)); vm_compute; exact I).
  split; [split; [exact Hg|exact Hout]|].
  exact (dangling_claims_500 1000 _ (get_users NoToken ∅) _ 7 Hg Hout).
Defined.

Section Editing.

Variable generate_password_hash : string → string.


(** What a committed edit changes.  It answers 204 only to the owner;
    the row keeps its key, its creation time and its presence
    ([last_seen_at], [online]); nickname and password hash are the
    body's where the body has the field and the old ones where it has
    not; [updated_at] becomes [now] unless nothing changed; every other
    row is as before.  A body with neither field writes nothing. *)
Theorem edit_user_frame now claims uid data (db db' : store) u r :
  query_get uid db = Some u →
  edit_user generate_password_hash now (ValidToken claims) uid data db
  = Ok (r, db') →
  r = mkResponse 204 NoContent None
  ∧ claims !! "user_id" = Some uid
  ∧ length db' = length db
  ∧ (∀ other, other ≠ uid → query_get other db' = query_get other db)
  ∧ (data !! "nickname" = None → data !! "password" = None → db' = db)
  ∧ ∃ u',
      query_get uid db' = Some u'
      ∧ id u' = id u ∧ created_at u' = created_at u
      ∧ last_seen_at u' = last_seen_at u ∧ online u' = online u
      ∧ nickname u' = default (nickname u) (data !! "nickname")
      ∧ password_hash u'
        = default (password_hash u)
            (generate_password_hash <$> data !! "password")
      ∧ (u' = u ∨ updated_at u' = now).
Proof.
  intros Hq Hedit.
  pose proof (query_get_Some _ _ _ Hq) as [Hu Hid].
  assert (claims !! "user_id" = Some uid) as Hc.
  { unfold edit_user, token_auth, get_or_404 in Hedit. rewrite Hq in Hedit.
    cbn [mbind result_bind] in Hedit.
    destruct (claims !! "user_id") as [c|]; [|done].
    case_decide as Hne; [done|]. congruence. }
  rewrite (edit_user_owner _ _ _ _ _ _ _ Hq Hc), flush_one in Hedit.
  set (new := set_password_hash _ _) in Hedit.
  destruct (flush_update now db (u, new)) as [db1|] eqn:Hf; [|done].
  simpl in Hedit. injection Hedit as <- <-.
  split; [done|]. split; [done|].
  apply flush_update_cases in Hf as [[Heq ->]|(Hne & -> & _)].
  - split; [done|]. split; [done|]. split; [done|].
    exists u. pose proof (f_equal nickname Heq) as Hn.
    pose proof (f_equal password_hash Heq) as Hp.
    subst new. simpl in Hn, Hp. by auto 10.
  - split; [apply replace_row_length|]. split; [|split].
    + intros other Ho. apply query_get_replace_row_ne. simpl. congruence.
    + intros Hn Hp. exfalso. apply Hne. subst new. rewrite Hn, Hp.
      by destruct u.
    + exists (set_updated_at now new). split.
      * rewrite <- Hid at 1.
        change (id u) with (id (set_updated_at now new)).
        rewrite query_get_replace_row.
        change (id (set_updated_at now new)) with (id u). rewrite Hid, Hq.
        simpl. by rewrite decide_True.
      * simpl. by auto 10.
Qed.

End Editing.

Lemma edit_user_frame_witness :
  (query_get 1 [mkUser 1 0 900 900 "foo" "h" true;
                mkUser 2 0 900 900 "bar" "h" false]
   = Some (mkUser 1 0 900 900 "foo" "h" true)
   ∧ edit_user sample_hash 1000 (ValidToken (claims_of 1)) 1
       {[ "nickname" := "foo2" ]}
       [mkUser 1 0 900 900 "foo" "h" true; mkUser 2 0 900 900 "bar" "h" false]
     = Ok (mkResponse 204 NoContent None,
           [mkUser 1 0 1000 900 "foo2" "h" true;
            mkUser 2 0 900 900 "bar" "h" false])) ∧
  ∃ u',
    query_get 1 [mkUser 1 0 1000 900 "foo2" "h" true;
                 mkUser 2 0 900 900 "bar" "h" false] = Some u'
    ∧ last_seen_at u' = 900 ∧ online u' = true.
Proof.
  assert (query_get 1 [mkUser 1 0 900 900 "foo" "h" true;
                       mkUser 2 0 900 900 "bar" "h" false]
          = Some (mkUser 1 0 900 900 "foo" "h" true)) as Hq
    by (vm_compute; reflexivity).
  assert (edit_user sample_hash 1000 (ValidToken (claims_of 1)) 1
            {[ "nickname" := "foo2" ]}
            [mkUser 1 0 900 900 "foo" "h" true;
             mkUser 2 0 900 900 "bar" "h" false]
          = Ok (mkResponse 204 NoContent None,
                [mkUser 1 0 1000 900 "foo2" "h" true;
                 mkUser 2 0 900 900 "bar" "h" false])) as Hedit
    by (vm_compute; reflexivity).
  split; [split; [exact Hq|exact Hedit]|].
  destruct (edit_user_frame sample_hash 1000 _ 1 _ _ _ _ _ Hq Hedit)
    as (_ & _ & _ & _ & _ & u' & H1 & _ & _ & H2 & H3 & _).
  exists u'. split; [exact H1|]. split; [exact H2|exact H3].
Defined.

(** ** Presence over time *)

Lemma query_get_fmap_id (f : User → User) uid (db : store) :
  (∀ r, id (f r) = id r) → query_get uid (f <$> db) = f <$> query_get uid db.
Proof.
  intros Hf. unfold query_get. induction db as [|r db IH]; [done|].
  rewrite fmap_cons, !filter_cons, Hf.
  case_decide; [done|apply IH].
Qed.

(** The presence window.  A user the hook touches at [t] is still
    online after a pass of the loop at [now] exactly when
    [now - 60 ≤ t]; the pass never changes when the user was seen. *)
Theorem touch_then_sweep t now g uid (db : store) u :
  NoDup (id <$> db) → hook_user g = Some uid → query_get uid db = Some u →
  ∃ db1 db2 u2,
    before_request t g db = Ok db1
    ∧ find_offline_users now db1 = Ok db2
    ∧ query_get uid db2 = Some u2
    ∧ last_seen_at u2 = t
    ∧ (online u2 = true ↔ now - 60 ≤ t).
Proof.
  intros Hnd Hg Hq.
  pose proof (query_get_Some _ _ _ Hq) as [Hu Hid].
  destruct (touched_row t db u Hnd Hu) as (db1 & Hfl & Hq1 & _ & Hids).
  assert (before_request t g db = Ok db1) as Hb.
  { unfold before_request. unfold hook_user in Hg.
    destruct g as [claims|]; [|done]. simpl in Hg. by rewrite Hg, Hq. }
  assert (last_seen_at (touch t u) = t ∧ online (touch t u) = true)
    as [Hls Hon].
  { unfold touch. case_decide as Heq; [|done].
    split; [apply (f_equal last_seen_at) in Heq|apply (f_equal online) in Heq];
      done. }
  exists db1. eexists. eexists. split; [done|].
  split; [apply find_offline_users_rows; by rewrite Hids|].
  rewrite query_get_fmap_id by (intros r; by case_decide).
  rewrite <- Hid, Hq1. simpl. split; [done|].
  destruct (decide (is_stale now (touch t u))) as [[Hst _]|Hst].
  - rewrite Hls in Hst. simpl. rewrite Hls.
    split; [done|]. split; [done|lia].
  - rewrite Hls, Hon. split; [done|]. split; [intros _|done].
    destruct (decide (now - 60 ≤ t)); [done|]. exfalso. apply Hst.
    split; [rewrite Hls; lia|done].
Qed.

Lemma touch_then_sweep_witness :
  (NoDup (id <$> [mkUser 1 0 900 900 "foo" "h" false])
   ∧ hook_user (Some (claims_of 1)) = Some 1
   ∧ query_get 1 [mkUser 1 0 900 900 "foo" "h" false]
     = Some (mkUser 1 0 900 900 "foo" "h" false)) ∧
  ∃ db1 db2 u2,
    before_request 1000 (Some (claims_of 1))
      [mkUser 1 0 900 900 "foo" "h" false] = Ok db1
    ∧ find_offline_users 1061 db1 = Ok db2
    ∧ query_get 1 db2 = Some u2
    ∧ last_seen_at u2 = 1000
    ∧ (online u2 = true ↔ 1061 - 60 ≤ 1000).
Proof.
  assert (NoDup (id <$> [mkUser 1 0 900 900 "foo" "h" false])) as Hnd
    by (apply (bool_decide_unpack (NoDup _)); vm_compute; exact I).
  assert (hook_user (Some (claims_of 1)) = Some 1) as Hg
    by (vm_compute; reflexivity).
  assert (query_get 1 [mkUser 1 0 900 900 "foo" "h" false]
          = Some (mkUser 1 0 900 900 "foo" "h" false)) as Hq
    by (vm_compute; reflexivity).
  split; [split; [exact Hnd|split; [exact Hg|exact Hq]]|].
  exact (touch_then_sweep 1000 1061 _ 1 _ _ Hnd Hg Hq).
Defined.

(** A second pass of the loop at the same clock reading changes
    nothing: after a pass at [now] no row is left that the pass would
    demote. *)
Theorem find_offline_users_idempotent now (db db' : store) :
  NoDup (id <$> db) → find_offline_users now db = Ok db' →
  find_offline_users now db' = Ok db'
  ∧ ∀ u, u ∈ db' → ¬ is_stale now u.
Proof.
  intros Hnd. rewrite find_offline_users_rows by done. intros [= <-].
  assert (∀ r, ¬ is_stale now
                 (if decide (is_stale now r) then demoted now r else r))
    as Hfresh.
  { intros r. case_decide as Hst; [|done]. by intros [_ ?]. }
  split.
  - rewrite find_offline_users_rows.
    + f_equal. rewrite <- list_fmap_compose. apply list_fmap_ext.
      intros i r _. simpl. by rewrite decide_False.
    + rewrite <- list_fmap_compose.
      erewrite list_fmap_ext; [exact Hnd|]. intros i r _. simpl.
      by case_decide.
  - intros u Hu. apply list_elem_of_fmap in Hu as (r & -> & _). apply Hfresh.
Qed.

Lemma find_offline_users_idempotent_witness :
  (NoDup (id <$> [mkUser 1 0 900 900 "foo" "h" true])
   ∧ find_offline_users 1000 [mkUser 1 0 900 900 "foo" "h" true]
     = Ok [mkUser 1 0 1000 900 "foo" "h" false]) ∧
  find_offline_users 1000 [mkUser 1 0 1000 900 "foo" "h" false]
  = Ok [mkUser 1 0 1000 900 "foo" "h" false].
Proof.
  assert (NoDup (id <$> [mkUser 1 0 900 900 "foo" "h" true])) as Hnd
    by (apply (bool_decide_unpack (NoDup _)); vm_compute; exact I).
  assert (find_offline_users 1000 [mkUser 1 0 900 900 "foo" "h" true]
          = Ok [mkUser 1 0 1000 900 "foo" "h" false]) as Hs
    by (vm_compute; reflexivity).
  split; [split; [exact Hnd|exact Hs]|].
  exact (proj1 (find_offline_users_idempotent 1000 _ _ Hnd Hs)).
Defined.

(** ** What the read endpoints show and do *)

Lemma filter_fmap_same {A} (g : A → A) (P : A → Prop)
    `{!∀ x, Decision (P x)} (l : list A) :
  (∀ x, P (g x) ↔ P x) → filter P (g <$> l) = g <$> filter P l.
Proof.
  intros Hg. induction l as [|x l IH]; [done|].
  rewrite fmap_cons, !filter_cons.
  destruct (decide (P x)) as [Hx|Hx].
  - rewrite decide_True by (by apply Hg). by rewrite fmap_cons, IH.
  - rewrite decide_False by (by rewrite Hg). done.
Qed.

Section MergeSortFmap.

Context {A : Type} (R : relation A) `{!∀ x y, Decision (R x y)}.
Variable g : A → A.
Hypothesis g_mono : ∀ x y, R (g x) (g y) ↔ R x y.

Let stack_fmap (st : list (option (list A))) : list (option (list A)) :=
  (λ o : option (list A), (λ l : list A, g <$> l) <$> o) <$> st.

Lemma list_merge_fmap (l1 l2 : list A) :
  list_merge R (g <$> l1) (g <$> l2) = g <$> list_merge R l1 l2.
Proof.
  revert l2. induction l1 as [|x1 l1 IH1]; intros l2.
  - by rewrite fmap_nil, !list_merge_nil_l.
  - induction l2 as [|x2 l2 IH2].
    + by rewrite fmap_nil, !list_merge_nil_r.
    + rewrite !fmap_cons, !list_merge_cons.
      destruct (decide (R x1 x2)) as [Hx|Hx].
      * rewrite decide_True by (by apply g_mono).
        rewrite fmap_cons. f_equal. apply (IH1 (x2 :: l2)).
      * rewrite decide_False by (by rewrite g_mono).
        rewrite fmap_cons. f_equal. apply IH2.
Qed.

Lemma merge_list_to_stack_fmap (st : list (option (list A))) (l : list A) :
  merge_list_to_stack R (stack_fmap st) (g <$> l)
  = stack_fmap (merge_list_to_stack R st l).
Proof.
  revert l. induction st as [|[l'|] st IH]; intros l; [done| |done].
  unfold stack_fmap. rewrite fmap_cons. cbn [merge_list_to_stack fmap option_fmap option_map].
  rewrite fmap_cons. f_equal. rewrite list_merge_fmap. apply IH.
Qed.

Lemma merge_stack_fmap (st : list (option (list A))) :
  merge_stack R (stack_fmap st) = g <$> merge_stack R st.
Proof.
  induction st as [|[l'|] st IH]; [done| |done].
  unfold stack_fmap. rewrite fmap_cons. cbn [merge_stack fmap option_fmap option_map].
  fold (stack_fmap st). by rewrite IH, list_merge_fmap.
Qed.

Lemma merge_sort_aux_fmap (st : list (option (list A))) (l : list A) :
  merge_sort_aux R (stack_fmap st) (g <$> l) = g <$> merge_sort_aux R st l.
Proof.
  revert st. induction l as [|x l IH]; intros st.
  - apply merge_stack_fmap.
  - rewrite fmap_cons. cbn [merge_sort_aux]. rewrite <- IH. f_equal.
    apply (merge_list_to_stack_fmap st [x]).
Qed.

Lemma merge_sort_fmap (l : list A) :
  merge_sort R (g <$> l) = g <$> merge_sort R l.
Proof. apply (merge_sort_aux_fmap [] l). Qed.

End MergeSortFmap.

Lemma filter_online_rehash f args (db : store) :
  filter_online args (rehash f db) = rehash f (filter_online args db).
Proof.
  unfold filter_online, rehash. destruct (args !! "online") as [v|]; [|done].
  case_decide; [done|]. by apply filter_fmap_same.
Qed.

Lemma filter_updated_since_rehash f args (us : store) :
  filter_updated_since args (rehash f us)
  = match filter_updated_since args us with
    | Ok us' => Ok (rehash f us')
    | Raise e => Raise e
    end.
Proof.
  unfold filter_updated_since, rehash.
  destruct (args !! "updated_since") as [s|]; [|done].
  case_decide; [done|]. destruct (int s) as [v|e]; simpl; [|done].
  f_equal. by apply filter_fmap_same.
Qed.

(** The read endpoints do not show the password hash: replace the
    hashes of the table by any others, and the listing and the lookup
    give the client the same answer. *)
Theorem password_hash_not_exposed tok args uid f (db : store) :
  answer (get_users tok args (rehash f db)) = answer (get_users tok args db)
  ∧ answer (get_user tok uid (rehash f db)) = answer (get_user tok uid db).
Proof.
  assert (∀ l : store, to_dict <$> rehash f l = to_dict <$> l) as Hdict.
  { intros l. unfold rehash. rewrite <- list_fmap_compose.
    by apply list_fmap_ext. }
  split.
  - unfold get_users, token_optional_auth.
    rewrite filter_online_rehash, filter_updated_since_rehash.
    destruct tok; try done;
      destruct (filter_updated_since args (filter_online args db)) as [us|];
      simpl; try done; unfold rehash at 1;
      rewrite (merge_sort_fmap user_le) by done;
      fold (rehash f (merge_sort user_le us)); by rewrite Hdict.
  - unfold get_user, token_optional_auth, get_or_404, rehash.
    rewrite query_get_fmap_id by done.
    destruct tok; try done; by destruct (query_get uid db).
Qed.

(** The read endpoints write nothing: whatever the token and the
    parameters, a listing or a lookup leaves the table as the hook left
    it, and as it was when the hook finds no claims. *)
Theorem read_endpoints_write_nothing now g tok args uid (db : store) :
  (full_dispatch_request now g (get_users tok args) db).2
  = match before_request now g db with Ok db1 => db1 | Raise _ => db end
  ∧ (full_dispatch_request now g (get_user tok uid) db).2
    = match before_request now g db with Ok db1 => db1 | Raise _ => db end
  ∧ (hook_user g = None →
     (full_dispatch_request now g (get_users tok args) db).2 = db
     ∧ (full_dispatch_request now g (get_user tok uid) db).2 = db).
Proof.
  assert (∀ view : store → result (response * store),
            (∀ d r d', view d = Ok (r, d') → d' = d) →
            (full_dispatch_request now g view db).2
            = match before_request now g db with
              | Ok db1 => db1
              | Raise _ => db
              end) as Hread.
  { intros view Hview. unfold full_dispatch_request.
    destruct (before_request now g db) as [db1|]; [|done].
    destruct (view db1) as [[r d']|] eqn:Hv; [|done]. simpl.
    by eapply Hview. }
  split; [|split].
  - apply Hread. intros d r d'. apply get_users_reads.
  - apply Hread. intros d r d'. apply get_user_reads.
  - intros Hg. rewrite !Hread.
    + by rewrite before_request_no_claims.
    + intros d r d'. apply get_user_reads.
    + intros d r d'. apply get_users_reads.
Qed.

(** ** Integers in the query string *)












(** ** The background thread and the listing *)

Lemma only_demoted_refl u : only_demoted u u.
Proof. unfold only_demoted. by auto 10. Qed.

Lemma only_demoted_trans u v w :
  only_demoted u v → only_demoted v w → only_demoted u w.
Proof.
  unfold only_demoted.
  intros (-> & -> & -> & -> & -> & Huv) (-> & -> & -> & -> & -> & Hvw).
  do 5 (split; [done|]).
  destruct Huv as [->|[Hu Hv]]; [done|].
  destruct Hvw as [->|[Hv' _]]; [by right|congruence].
Qed.

Lemma sweep_only_demotes now (db : store) :
  NoDup (id <$> db) →
  ∃ db', find_offline_users now db = Ok db'
         ∧ NoDup (id <$> db') ∧ Forall2 only_demoted db db'.
Proof.
  intros Hnd. eexists. split; [by apply find_offline_users_rows|]. split.
  - rewrite <- list_fmap_compose.
    erewrite list_fmap_ext; [exact Hnd|]. intros i u _. simpl.
    by case_decide.
  - apply Forall2_fmap_r, Forall_Forall2_diag, Forall_forall.
    intros u _. simpl. case_decide as Hst; [|apply only_demoted_refl].
    destruct Hst as [_ Hon]. unfold only_demoted. simpl. by auto 10.
Qed.

(** Whatever passes the background thread is granted and whether it
    ends sleeping or dead, the table it leaves has the rows of the table
    it started from, in place, changed at most by a demotion: it never
    adds or removes a user, never puts a user online, and never touches
    a nickname, a password hash, [created_at] or [last_seen_at]. *)
Theorem background_thread_only_demotes passes (db : store) :
  NoDup (id <$> db) →
  Forall2 only_demoted db (thread_table (background_thread passes db)).
Proof.
  revert db. induction passes as [|[now st] passes IH]; intros db Hnd.
  - simpl. apply Forall_Forall2_diag, Forall_forall.
    intros u _. apply only_demoted_refl.
  - cbn [background_thread]. destruct st; cbn [loop_body].
    + destruct (sweep_only_demotes now db Hnd) as (db' & -> & Hnd' & Hd).
      specialize (IH db' Hnd').
      eapply Forall2_trans; [|exact Hd|exact IH].
      intros u v w. apply only_demoted_trans.
    + simpl. apply Forall_Forall2_diag, Forall_forall.
      intros u _. apply only_demoted_refl.
Qed.

Lemma background_thread_only_demotes_witness :
  NoDup (id <$> [mkUser 1 0 900 900 "foo" "h" true;
                 mkUser 2 0 900 990 "bar" "h" true]) ∧
  Forall2 only_demoted
    [mkUser 1 0 900 900 "foo" "h" true; mkUser 2 0 900 990 "bar" "h" true]
    (thread_table
       (background_thread [(1000, Reachable); (1005, Unreachable)]
          [mkUser 1 0 900 900 "foo" "h" true;
           mkUser 2 0 900 990 "bar" "h" true])).
Proof.
  assert (NoDup (id <$> [mkUser 1 0 900 900 "foo" "h" true;
                         mkUser 2 0 900 990 "bar" "h" true])) as Hnd
    by (apply (bool_decide_unpack (NoDup _)); vm_compute; exact I).
  split; [exact Hnd|].
  exact (background_thread_only_demotes
           [(1000, Reachable); (1005, Unreachable)] _ Hnd).
Defined.

Lemma filter_fmap_pre {A} (g : A → A) (P : A → Prop)
    `{!∀ x, Decision (P x)} (l : list A) :
  filter P (g <$> l) = g <$> filter (λ x, P (g x)) l.
Proof.
  induction l as [|x l IH]; [done|].
  rewrite fmap_cons, !filter_cons.
  destruct (decide (P (g x))); [by rewrite fmap_cons, IH|done].
Qed.

(** After a pass of the loop at [now], the listing with [online=1]
    (or any value but [0] and the empty one) shows exactly the users
    that were online and seen at [now - 60] or later, each as it was;
    [online=0] shows all the others. *)
Theorem sweep_then_get_users now tok v (db db' : store) :
  NoDup (id <$> db) → tok ≠ InvalidToken → v ≠ "" →
  find_offline_users now db = Ok db' →
  ∃ rows,
    get_users tok {[ "online" := v ]} db'
    = Ok (mkResponse 200 (UsersBody (to_dict <$> rows)) None, db')
    ∧ StronglySorted user_le rows
    ∧ if decide (v = "0")
      then length rows
           = length (filter (λ u, ¬ (online u = true
                                     ∧ now - 60 ≤ last_seen_at u)) db)
           ∧ Forall (λ u, online u = false) rows
      else rows ≡ₚ filter (λ u, online u = true ∧ now - 60 ≤ last_seen_at u)
                     db.
Proof.
  intros Hnd Htok Hv. rewrite find_offline_users_rows by done.
  intros [= <-]. set (f := λ r, if decide (is_stale now r) then _ else r).
  assert (since_bound {[ "online" := v ]} = Ok None) as Hb.
  { unfold since_bound. by rewrite lookup_singleton_ne. }
  rewrite get_users_rows, Hb by done. simpl.
  eexists. split; [done|].
  split; [apply StronglySorted_merge_sort; apply _|].
  assert (∀ u, presence_ok {[ "online" := v ]} u
               ↔ if decide (v = "0") then online u = false
                 else online u = true) as Hpres.
  { intros u. unfold presence_ok. rewrite lookup_singleton_eq.
    by rewrite decide_False. }
  rewrite (filter_all (since_ok None)) by done.
  destruct (decide (v = "0")) as [->|Hn0].
  - split.
    + rewrite merge_sort_Permutation, filter_fmap_pre, length_fmap.
      f_equal. apply list_filter_iff. intros u. rewrite Hpres.
      subst f. simpl.
      unfold is_stale. case_decide as Hst; simpl.
      * split; [intros _ [_ ?]; lia|done].
      * split.
        -- intros Hoff [Hon _]. congruence.
        -- intros Hnot. destruct (online u) eqn:Hon; [|done].
           exfalso. apply Hnot. split; [done|].
           destruct (decide (now - 60 ≤ last_seen_at u)); [done|].
           exfalso. apply Hst. split; [lia|done].
    + apply Forall_forall. intros u Hu.
      rewrite merge_sort_Permutation in Hu.
      apply list_elem_of_filter in Hu as [Hp _].
      by apply Hpres in Hp.
  - rewrite merge_sort_Permutation, filter_fmap_pre.
    assert (∀ u, presence_ok {[ "online" := v ]} (f u)
                 ↔ online u = true ∧ now - 60 ≤ last_seen_at u) as Hsel.
    { intros u. rewrite Hpres. subst f. simpl.
      unfold is_stale. case_decide as Hst; simpl.
      - split; [done|]. intros [_ ?]. lia.
      - split; [|by intros [? _]]. intros Hon. split; [done|].
        destruct (decide (now - 60 ≤ last_seen_at u)); [done|].
        exfalso. apply Hst. split; [lia|done]. }
    rewrite (list_filter_iff _ _ _ Hsel).
    assert (f <$> filter (λ u, online u = true ∧ now - 60 ≤ last_seen_at u) db
            = filter (λ u, online u = true ∧ now - 60 ≤ last_seen_at u) db)
      as ->; [|done].
    rewrite <- (list_fmap_id (filter _ db)) at 2. apply list_fmap_ext.
    intros i u Hu. apply list_elem_of_lookup_2 in Hu.
    apply list_elem_of_filter in Hu as [[_ Hle] _]. subst f. simpl.
    rewrite decide_False; [done|]. intros [? _]. lia.
Qed.

Lemma sweep_then_get_users_witness :
  (NoDup (id <$> [mkUser 1 0 900 900 "foo" "h" true;
                  mkUser 2 0 900 990 "bar" "h" true])
   ∧ NoToken ≠ InvalidToken ∧ "1" ≠ ""
   ∧ find_offline_users 1000
       [mkUser 1 0 900 900 "foo" "h" true; mkUser 2 0 900 990 "bar" "h" true]
     = Ok [mkUser 1 0 1000 900 "foo" "h" false;
           mkUser 2 0 900 990 "bar" "h" true]) ∧
  ∃ rows,
    get_users NoToken {[ "online" := "1" ]}
      [mkUser 1 0 1000 900 "foo" "h" false; mkUser 2 0 900 990 "bar" "h" true]
    = Ok (mkResponse 200 (UsersBody (to_dict <$> rows)) None,
          [mkUser 1 0 1000 900 "foo" "h" false;
           mkUser 2 0 900 990 "bar" "h" true])
    ∧ rows ≡ₚ filter (λ u, online u = true ∧ 1000 - 60 ≤ last_seen_at u)
                [mkUser 1 0 900 900 "foo" "h" true;
                 mkUser 2 0 900 990 "bar" "h" true].
Proof.
  assert (NoDup (id <$> [mkUser 1 0 900 900 "foo" "h" true;
                         mkUser 2 0 900 990 "bar" "h" true])) as Hnd
    by (apply (bool_decide_unpack (NoDup _)); vm_compute; exact I).
  assert (find_offline_users 1000
            [mkUser 1 0 900 900 "foo" "h" true;
             mkUser 2 0 900 990 "bar" "h" true]
          = Ok [mkUser 1 0 1000 900 "foo" "h" false;
                mkUser 2 0 900 990 "bar" "h" true]) as Hs
    by (vm_compute; reflexivity).
  split; [split; [exact Hnd|split; [discriminate|split;
                                    [discriminate|exact Hs]]]|].
  destruct (sweep_then_get_users 1000 NoToken "1" _ _ Hnd
              ltac:(discriminate) ltac:(discriminate) Hs)
    as (rows & H1 & _ & H2).
  exists rows. split; [exact H1|exact H2].
Defined.
